(** * A SOCKS5 server: handshake, request framing and relay

    Shallow embedding of the Go package [socks5] (auth.go, socks5.go and
    the file of the request and reply messages).  A connection is a record holding the bytes the peer will
    still send and the bytes written to it so far; every function that takes
    a [conn] in Go is a computation over that record.  Errors, panics of the
    Go runtime and a relay that has not finished yet are the possible
    outcomes of a computation. *)

From Stdlib Require Import ZArith List Bool Lia Strings.Byte.
From Stdlib Require String Ascii DecimalString HexadecimalString.
Import ListNotations String.StringSyntax.

Local Open Scope string_scope.
Local Open Scope list_scope.
Local Open Scope Z_scope.

Abbreviation string := String.string.

(** ** Bytes and Go's integer conversions *)

Definition Z_of_byte (b : byte) : Z := Z.of_N (Byte.to_N b).

(** [byte(x)]: conversion to uint8 keeps the low eight bits. *)
Definition byte_of_Z (z : Z) : byte :=
  match Byte.of_N (Z.to_N (z mod 256)) with
  | Some b => b
  | None => x00
  end.

(** [uint16(x)] and arithmetic on uint16 wrap around at 2^16. *)
Definition wrap16 (z : Z) : Z := z mod 65536.

(** Addition on the type [byte] wraps around at 256. *)
Definition byte_add (a b : byte) : byte := byte_of_Z (Z_of_byte a + Z_of_byte b).

(** [len(buf)], as Go's int. *)
Definition len (buf : list byte) : Z := Z.of_nat (length buf).

(** [make([]byte, n)] *)
Definition make (n : Z) : list byte := repeat x00 (Z.to_nat n).

(** [buf[:hi]]; [None] stands for the run-time panic on a bad bound. *)
Definition slice_to (buf : list byte) (hi : Z) : option (list byte) :=
  if (0 <=? hi) && (hi <=? len buf) then Some (firstn (Z.to_nat hi) buf) else None.

(** [buf[i]]; [None] stands for the run-time panic on a bad index. *)
Definition index (buf : list byte) (i : Z) : option byte :=
  if (0 <=? i) && (i <? len buf) then nth_error buf (Z.to_nat i) else None.

(** [string(buf)]: a Go string is the sequence of its bytes. *)
Definition string_of_bytes (buf : list byte) : string := String.string_of_list_byte buf.

(** ** Errors and outcomes *)

Inductive error : Type :=
| ErrVersionNotSupported
| ErrMethodVersionNotSupported
| ErrCommandNotSupported
| ErrInvalidReservedField
| ErrAddressTypeNotSupported
| ErrPasswordCheckerNotSet
| ErrPasswordAuthFailure
| EOF                          (* io.EOF *)
| ErrUnexpectedEOF             (* io.ErrUnexpectedEOF *)
| ErrClosed                    (* use of a closed connection *)
| ErrOther (what : string).    (* any other error of the transport *)

Definition is_EOF (e : error) : bool :=
  match e with EOF => true | _ => false end.

Inductive outcome (A : Type) : Type :=
| Ok (a : A)                   (* returned, err == nil *)
| Err (e : error)              (* returned err *)
| Panic (why : string)         (* run-time panic *)
| Pending.                     (* still running when the schedule ended *)

Arguments Ok {A} a.
Arguments Err {A} e.
Arguments Panic {A} why.
Arguments Pending {A}.

(** A computation over a state [S]. *)
Definition M (S A : Type) : Type := S -> outcome A * S.

Definition ret {S A} (a : A) : M S A := fun s => (Ok a, s).

Definition bind {S A B} (m : M S A) (k : A -> M S B) : M S B :=
  fun s =>
    match m s with
    | (Ok a, s') => k a s'
    | (Err e, s') => (Err e, s')
    | (Panic w, s') => (Panic w, s')
    | (Pending, s') => (Pending, s')
    end.

Definition throw {S A} (e : error) : M S A := fun s => (Err e, s).

Definition panic {S A} (why : string) : M S A := fun s => (Panic why, s).

(** A call whose error result the caller does not look at. *)
Definition discard {S A} (m : M S A) : M S unit :=
  fun s =>
    match m s with
    | (Ok _, s') => (Ok tt, s')
    | (Err _, s') => (Ok tt, s')
    | (Panic w, s') => (Panic w, s')
    | (Pending, s') => (Pending, s')
    end.

(** An indexing or slicing expression: its value, or the panic. *)
Definition checked {S A} (o : option A) (why : string) : M S A :=
  match o with
  | Some a => ret a
  | None => panic why
  end.

Declare Scope go_scope.
Delimit Scope go_scope with go.
Notation "x <- c1 ;; c2" := (bind c1 (fun x => c2))
  (at level 61, c1 at next level, right associativity) : go_scope.
Notation "c1 ;; c2" := (bind c1 (fun _ => c2))
  (at level 61, right associativity) : go_scope.
Local Open Scope go_scope.

(** ** Connections *)

Record Conn : Type := mkConn {
  rd : list byte;          (* bytes the peer sends before its stream ends *)
  rend : error;            (* what Read reports once [rd] is used up *)
  wr : list byte;          (* bytes written to the peer so far *)
  wcap : option nat;       (* [Some n]: the writer fails after n more bytes *)
  werr : error;            (* the error of the failing writer *)
  closed : bool
}.

Definition set_rd (l : list byte) (c : Conn) : Conn :=
  mkConn l (rend c) (wr c) (wcap c) (werr c) (closed c).

Definition set_wr (l : list byte) (cap : option nat) (c : Conn) : Conn :=
  mkConn (rd c) (rend c) l cap (werr c) (closed c).

Definition set_closed (c : Conn) : Conn :=
  mkConn (rd c) (rend c) (wr c) (wcap c) (werr c) true.

(** [io.ReadFull(conn, buf)]: fills [buf] entirely or fails; a buffer of
    length 0 is filled without reading.  The result is the filled buffer. *)
Definition ReadFull (buf : list byte) : M Conn (list byte) :=
  fun c =>
    let n := length buf in
    match n with
    | O => (Ok [], c)
    | _ =>
      if closed c then (Err ErrClosed, c)
      else if (n <=? length (rd c))%nat
      then (Ok (firstn n (rd c)), set_rd (skipn n (rd c)) c)
      else (Err (match rd c with
                 | [] => rend c
                 | _ :: _ => if is_EOF (rend c) then ErrUnexpectedEOF else rend c
                 end),
            set_rd [] c)
    end.

(** [io.ReadFull(conn, buf[:hi])]: the result is [buf] with its first [hi]
    bytes overwritten. *)
Definition ReadFullTo (buf : list byte) (hi : Z) : M Conn (list byte) :=
  dst <- checked (slice_to buf hi) "slice bounds out of range" ;;
  data <- ReadFull dst ;;
  ret (data ++ skipn (length dst) buf).

(** [conn.Write(p)] *)
Definition Write (p : list byte) : M Conn unit :=
  fun c =>
    if closed c then (Err ErrClosed, c)
    else match wcap c with
         | None => (Ok tt, set_wr (wr c ++ p) None c)
         | Some n =>
           if (length p <=? n)%nat
           then (Ok tt, set_wr (wr c ++ p) (Some (n - length p)%nat) c)
           else (Err (werr c), set_wr (wr c ++ firstn n p) (Some O) c)
         end.

(** [targetConn.Close()] *)
Definition Close : M Conn unit := fun c => (Ok tt, set_closed c).

(** ** auth.go *)

Definition Method := byte.

Definition MethodNoAuth : Method := x00.
Definition MethodGSSAPI : Method := x01.
Definition MethodPassword : Method := x02.
Definition MethodNoAcceptable : Method := xff.

Definition PasswordMethodVersion : byte := x01.
Definition PasswordAuthSuccess : byte := x00.
Definition PasswordAuthFailure : byte := x01.

Definition SOCKS5Version : byte := x05.
Definition ReservedField : byte := x00.

Record ClientAuthMessage : Type := mkClientAuthMessage {
  Version : byte;
  NMethods : byte;
  Methods : list Method
}.

Record ClientPasswordMessage : Type := mkClientPasswordMessage {
  Username : string;
  Password : string
}.

Definition NewClientAuthMessage : M Conn ClientAuthMessage :=
  buf <- ReadFull (make 2) ;;
  match buf with
  | [version; nmethods] =>
    if negb (Byte.eqb version SOCKS5Version) then throw ErrVersionNotSupported
    else
      buf <- ReadFull (make (Z_of_byte nmethods)) ;;
      ret (mkClientAuthMessage SOCKS5Version nmethods buf)
  | _ => panic "index out of range"
  end.

Definition SendServerAuthMessage (method : Method) : M Conn unit :=
  Write [SOCKS5Version; method].

Definition NewClientPasswordMessage : M Conn ClientPasswordMessage :=
  buf <- ReadFull (make 2) ;;
  match buf with
  | [version; usernameLen] =>
    if negb (Byte.eqb version PasswordMethodVersion)
    then throw ErrMethodVersionNotSupported
    else
      buf <- ReadFull (make (Z_of_byte (byte_add usernameLen x01))) ;;
      username <- checked (slice_to buf (len buf - 1)) "slice bounds out of range" ;;
      passwordLen <- checked (index buf (len buf - 1)) "index out of range" ;;
      let buf := if len buf <? Z_of_byte passwordLen
                 then make (Z_of_byte passwordLen) else buf in
      buf <- ReadFullTo buf (Z_of_byte passwordLen) ;;
      password <- checked (slice_to buf (Z_of_byte passwordLen))
                          "slice bounds out of range" ;;
      ret (mkClientPasswordMessage (string_of_bytes username)
                                   (string_of_bytes password))
  | _ => panic "index out of range"
  end.

Definition WriteServerPasswordMessage (status : byte) : M Conn unit :=
  Write [PasswordMethodVersion; status].

(** ** Request and reply messages *)

Definition IPv4Length : Z := 4.
Definition IPv6Length : Z := 16.
Definition PortLength : Z := 2.

Definition Command := byte.

Definition CmdConnect : Command := x01.
Definition CmdBind : Command := x02.
Definition CmdUDP : Command := x03.

Definition AddressType := byte.

Definition TypeIPv4 : AddressType := x01.
Definition TypeDomain : AddressType := x03.
Definition TypeIPv6 : AddressType := x04.

Definition ReplyType := byte.

Definition ReplySuccess : ReplyType := x00.
Definition ReplyServerFailure : ReplyType := x01.
Definition ReplyConnectionNotAllowed : ReplyType := x02.
Definition ReplyNetworkUnreachable : ReplyType := x03.
Definition ReplyHostUnreachable : ReplyType := x04.
Definition ReplyConnectionRefused : ReplyType := x05.
Definition ReplyTTLExpired : ReplyType := x06.
Definition ReplyCommandNotSupported : ReplyType := x07.
Definition ReplyAddressTypeNotSupported : ReplyType := x08.

Record ClientRequestMessage : Type := mkClientRequestMessage {
  Cmd : Command;
  AddrType : AddressType;
  TargetIP : string;
  Port : Z                 (* uint16 *)
}.

(** [(uint16(b0) << 8) + uint16(b1)] *)
Definition port_of_bytes (b0 b1 : byte) : Z :=
  wrap16 (wrap16 (Z.shiftl (Z_of_byte b0) 8) + Z_of_byte b1).

(** The two bytes [WriteRequestSuccessMessage] computes for a port. *)
Definition port_bytes (port : Z) : list byte :=
  let b0 := byte_of_Z (Z.shiftr port 8) in
  let b1 := byte_of_Z (wrap16 (port - wrap16 (Z.shiftl (Z_of_byte b0) 8))) in
  [b0; b1].

Definition WriteRequestSuccessMessage (ip : list byte) (port : Z) : M Conn unit :=
  let addressType := if len ip >? IPv4Length then TypeIPv6 else TypeIPv4 in
  Write [SOCKS5Version; ReplySuccess; ReservedField; addressType] ;;
  Write ip ;;
  Write (port_bytes port).

Definition WriteRequestFailureMessage (replyType : ReplyType) : M Conn unit :=
  Write [SOCKS5Version; replyType; ReservedField; TypeIPv4;
         x00; x00; x00; x00; x00; x00].

(** ** The relay: two copies of [io.Copy] running side by side *)

(** The size of the buffer [io.Copy] reads into. *)
Definition copyBuffer : nat := Z.to_nat 32768.

(** One turn of the loop of [io.Copy(dst, src)]: a Read, then a Write of what
    was read.  The first component is [Some r] when the copy returns [r]
    ([None] for nil: the end of the stream is not an error of the copy). *)
Definition copy_turn (dst src : Conn) : option (option error) * Conn * Conn :=
  if closed src then (Some (Some ErrClosed), dst, src)
  else match rd src with
       | [] => (Some (if is_EOF (rend src) then None else Some (rend src)), dst, src)
       | _ :: _ =>
         let src' := set_rd (skipn copyBuffer (rd src)) src in
         match Write (firstn copyBuffer (rd src)) dst with
         | (Ok _, dst') => (None, dst', src')
         | (Err e, dst') => (Some (Some e), dst', src')
         | (_, dst') => (Some (Some (ErrOther "write")), dst', src')
         end
       end.

(** [io.Copy(dst, src)] on its own; [fuel] bounds the number of turns. *)
Fixpoint io_Copy (fuel : nat) (dst src : Conn) : option (option error) * Conn * Conn :=
  match fuel with
  | O => (None, dst, src)
  | S fuel' =>
    match copy_turn dst src with
    | (Some r, dst', src') => (Some r, dst', src')
    | (None, dst', src') => io_Copy fuel' dst' src'
    end
  end.

(** The goroutine that runs a turn next. *)
Inductive thread : Type :=
| Main          (* the caller of forward: io.Copy(conn, targetConn) *)
| Spawned.      (* go io.Copy(targetConn, conn) *)

(** The two copies of [forward] interleaved as [sched] says, until the copy
    of the main goroutine returns.  [spawned] tells whether the other copy is
    still running; its result is dropped. *)
Fixpoint relay (sched : list thread) (spawned : bool) (conn targetConn : Conn)
  : option (option error) * Conn * Conn :=
  match sched with
  | [] => (None, conn, targetConn)
  | Main :: sched' =>
    match copy_turn conn targetConn with
    | (Some r, conn', targetConn') => (Some r, conn', targetConn')
    | (None, conn', targetConn') => relay sched' spawned conn' targetConn'
    end
  | Spawned :: sched' =>
    if spawned
    then match copy_turn targetConn conn with
         | (Some _, targetConn', conn') => relay sched' false conn' targetConn'
         | (None, targetConn', conn') => relay sched' true conn' targetConn'
         end
    else relay sched' false conn targetConn
  end.

(** [forward(conn, targetConn)]; the state is the pair of the two
    connections.  The deferred Close runs when the function returns. *)
Definition forward (sched : list thread) : M (Conn * Conn) unit :=
  fun '(conn, targetConn) =>
    match relay sched true conn targetConn with
    | (None, conn', targetConn') => (Pending, (conn', targetConn'))
    | (Some err, conn', targetConn') =>
      (match err with None => Ok tt | Some e => Err e end,
       (conn', set_closed targetConn'))
    end.

(** ** socks5.go *)

Record Config : Type := mkConfig {
  AuthMethod : Method;
  PasswordChecker : option (string -> string -> bool);   (* [None]: nil *)
  TCPTimeout : Z
}.

Definition initConfig (config : Config) : outcome unit :=
  if Byte.eqb (AuthMethod config) MethodPassword &&
     match PasswordChecker config with None => true | Some _ => false end
  then Err ErrPasswordCheckerNotSet
  else Ok tt.

(** What a successful dial gives: the connection and its local address. *)
Record Target : Type := mkTarget {
  tconn : Conn;
  LocalIP : list byte;
  LocalPort : Z            (* int *)
}.

(** The state one connection handler works on. *)
Record World : Type := mkWorld {
  client : Conn;               (* the accepted connection *)
  target : option Conn;        (* the connection to the target, once dialed *)
  dialed : list string         (* the addresses dialed so far *)
}.

Definition on_client {A} (m : M Conn A) : M World A :=
  fun w => let '(r, c) := m (client w) in (r, mkWorld c (target w) (dialed w)).

Definition on_both {A} (m : M (Conn * Conn) A) : M World A :=
  fun w =>
    match target w with
    | None => (Panic "nil connection", w)
    | Some t => let '(r, (c', t')) := m (client w, t) in
                (r, mkWorld c' (Some t') (dialed w))
    end.

(** [x, err := f()] followed by a test of [err]. *)
Definition attempt {S A} (m : M S A) : M S (A + error) :=
  fun s =>
    match m s with
    | (Ok a, s') => (Ok (inl a), s')
    | (Err e, s') => (Ok (inr e), s')
    | (Panic w, s') => (Panic w, s')
    | (Pending, s') => (Pending, s')
    end.

(** [%d] of fmt.Sprintf, for a number that is not negative. *)
Definition decimal (n : Z) : string :=
  DecimalString.NilEmpty.string_of_uint (N.to_uint (Z.to_N n)).

(** The loop of [auth] over the offered methods. *)
Fixpoint acceptable (configured : Method) (methods : list Method) : bool :=
  match methods with
  | [] => false
  | method :: rest =>
    if Byte.eqb method configured then true else acceptable configured rest
  end.

Section Server.

(** What the package takes from Go's library and from its surroundings:
    [net.IP.String], the outcome of [net.DialTimeout] for an address, and
    the order in which the two goroutines of the relay take their turns. *)
Variable IP_String : list byte -> string.
Variable DialTimeout : string -> Z -> Target + error.
Variable sched : list thread.

Variable s : Config.       (* s.Config of the server *)

Definition NewClientRequestMessage : M Conn ClientRequestMessage :=
  buf <- ReadFull (make 4) ;;
  match buf with
  | [version; command; reserved; addrType] =>
    if negb (Byte.eqb version SOCKS5Version) then throw ErrVersionNotSupported
    else if negb (Byte.eqb command CmdConnect) && negb (Byte.eqb command CmdBind)
            && negb (Byte.eqb command CmdUDP)
    then throw ErrCommandNotSupported
    else if negb (Byte.eqb reserved ReservedField) then throw ErrInvalidReservedField
    else if negb (Byte.eqb addrType TypeIPv4) && negb (Byte.eqb addrType TypeIPv6)
            && negb (Byte.eqb addrType TypeDomain)
    then throw ErrAddressTypeNotSupported
    else
      r <- (if Byte.eqb addrType TypeIPv6 then
              buf <- ReadFull (make IPv6Length) ;;
              ret (buf, IP_String buf)
            else if Byte.eqb addrType TypeIPv4 then
              buf <- ReadFull buf ;;
              ret (buf, IP_String buf)
            else if Byte.eqb addrType TypeDomain then
              buf <- ReadFullTo buf 1 ;;
              domainLength <- checked (index buf 0) "index out of range" ;;
              let buf := if Z_of_byte domainLength >? IPv4Length
                         then make (Z_of_byte domainLength) else buf in
              buf <- ReadFullTo buf (Z_of_byte domainLength) ;;
              domain <- checked (slice_to buf (Z_of_byte domainLength))
                                "slice bounds out of range" ;;
              ret (buf, string_of_bytes domain)
            else ret (buf, "")) ;;
      let '(buf, targetIP) := r in
      buf <- ReadFullTo buf PortLength ;;
      b0 <- checked (index buf 0) "index out of range" ;;
      b1 <- checked (index buf 1) "index out of range" ;;
      ret (mkClientRequestMessage command addrType targetIP (port_of_bytes b0 b1))
  | _ => panic "index out of range"
  end.

Definition auth : M Conn unit :=
  clientMessage <- NewClientAuthMessage ;;
  if negb (acceptable (AuthMethod s) (Methods clientMessage)) then
    discard (SendServerAuthMessage MethodNoAcceptable) ;;
    throw ErrVersionNotSupported
  else
    SendServerAuthMessage (AuthMethod s) ;;
    if Byte.eqb (AuthMethod s) MethodPassword then
      cpm <- NewClientPasswordMessage ;;
      ok <- match PasswordChecker s with
            | Some check => ret (check (Username cpm) (Password cpm))
            | None => panic "nil function"
            end ;;
      if negb ok then
        discard (WriteServerPasswordMessage PasswordAuthFailure) ;;
        throw ErrPasswordAuthFailure
      else WriteServerPasswordMessage PasswordAuthSuccess
    else ret tt.

(** [net.DialTimeout("tcp", address, timeout)] *)
Definition dial (address : string) (timeout : Z) : M World Target :=
  fun w =>
    match DialTimeout address timeout with
    | inl t => (Ok t, mkWorld (client w) (Some (tconn t)) (dialed w ++ [address]))
    | inr e => (Err e, mkWorld (client w) (target w) (dialed w ++ [address]))
    end.

Definition handleTCP (message : ClientRequestMessage) : M World unit :=
  let address := String.append (TargetIP message)
                   (String.append ":" (decimal (Port message))) in
  r <- attempt (dial address (TCPTimeout s)) ;;
  match r with
  | inr err =>
    discard (on_client (WriteRequestFailureMessage ReplyConnectionRefused)) ;;
    throw err
  | inl t =>
    on_client (WriteRequestSuccessMessage (LocalIP t) (wrap16 (LocalPort t))) ;;
    on_both (forward sched)
  end.

Definition handleUDP : M World unit := ret tt.

Definition request : M World unit :=
  message <- on_client NewClientRequestMessage ;;
  if Byte.eqb (AddrType message) TypeIPv6 then
    discard (on_client (WriteRequestFailureMessage ReplyAddressTypeNotSupported)) ;;
    throw ErrAddressTypeNotSupported
  else if Byte.eqb (Cmd message) CmdConnect then handleTCP message
  else if Byte.eqb (Cmd message) CmdUDP then handleUDP
  else
    discard (on_client (WriteRequestFailureMessage ReplyCommandNotSupported)) ;;
    throw ErrCommandNotSupported.

Definition handleConnection : M World unit :=
  on_client auth ;;
  request.

End Server.

(** ** Go's [net.IP.String], for running the server on concrete inputs

    The theorems below hold for any rendering of addresses; this one follows
    the standard library: dotted decimal for 4 bytes and for the
    IPv4-mapped addresses of 16 bytes, the colon form with the first longest
    run of two or more zero groups compressed for the others. *)

Definition hexadecimal (n : Z) : string :=
  HexadecimalString.NilEmpty.string_of_uint (N.to_hex_uint (Z.to_N n)).

Definition dotted (p : list byte) : string :=
  String.concat "." (map (fun b => decimal (Z_of_byte b)) p).

Fixpoint groups (p : list byte) : list Z :=
  match p with
  | hi :: lo :: rest => (Z_of_byte hi * 256 + Z_of_byte lo) :: groups rest
  | _ => []
  end.

Fixpoint zero_run (g : list Z) : nat :=
  match g with
  | 0 :: rest => S (zero_run rest)
  | _ => O
  end.

(** The first longest run of zero groups: where it starts and its length. *)
Fixpoint longest_run (i : nat) (g : list Z) (best : nat * nat) : nat * nat :=
  match g with
  | [] => best
  | _ :: rest =>
    let l := zero_run g in
    longest_run (S i) rest
      (if (2 <=? l)%nat && (snd best <? l)%nat then (i, l) else best)
  end.

Definition colon_form (p : list byte) : string :=
  let g := groups p in
  let '(start, l) := longest_run O g (O, O) in
  if (l =? 0)%nat then String.concat ":" (map hexadecimal g)
  else String.append (String.concat ":" (map hexadecimal (firstn start g)))
         (String.append "::"
            (String.concat ":" (map hexadecimal (skipn (start + l) g)))).

Definition is_mapped (p : list byte) : bool :=
  forallb (Byte.eqb x00) (firstn 10 p) &&
  forallb (Byte.eqb xff) (firstn 2 (skipn 10 p)).

Definition hex2 (b : byte) : string :=
  String.append (hexadecimal (Z_of_byte b / 16)) (hexadecimal (Z_of_byte b mod 16)).

Definition net_IP_String (p : list byte) : string :=
  match length p with
  | 0%nat => "<nil>"
  | 4%nat => dotted p
  | 16%nat => if is_mapped p then dotted (skipn 12 p) else colon_form p
  | _ => String.append "?" (String.concat "" (map hex2 p))
  end.

(** A connection whose peer sends [input] and then closes its side, with a
    writer that never fails. *)
Definition conn_of (input : list byte) : Conn :=
  mkConn input EOF [] None (ErrOther "write") false.

(** The world of a handler that has just accepted [c]. *)
Definition accepted (c : Conn) : World := mkWorld c None [].

(** [input] as the bytes of a string. *)
Definition bytes (input : string) : list byte := String.list_byte_of_string input.

(** The writer of [c] takes [n] more bytes without failing. *)
Definition room (n : nat) (c : Conn) : Prop :=
  closed c = false /\
  match wcap c with None => True | Some k => (n <= k)%nat end.

(** The text the request parser stores for the address bytes [addr]. *)
Definition address_text (IP_String : list byte -> string)
    (atyp : AddressType) (addr : list byte) : string :=
  if Byte.eqb atyp TypeDomain then string_of_bytes addr else IP_String addr.

(** Modelled from the spec: the package is the server side only and has no
    encoder of client requests.  This one writes the wire layout
    VER CMD RSV ATYP DST.ADDR DST.PORT of the specification for the message
    [m], whose address has the wire bytes [addr]: an IP address as its 4 or
    16 bytes, a domain name behind one byte holding its length, then the port
    in two bytes, most significant first. *)
Definition encodeRequest (m : ClientRequestMessage) (addr : list byte) : list byte :=
  [SOCKS5Version; Cmd m; ReservedField; AddrType m]
  ++ (if Byte.eqb (AddrType m) TypeDomain then [byte_of_Z (len addr)] else [])
  ++ addr
  ++ [byte_of_Z (Port m / 256); byte_of_Z (Port m mod 256)].

(** The address bytes [addr] have the length the address type asks for. *)
Definition address_fits (atyp : AddressType) (addr : list byte) : Prop :=
  (atyp = TypeIPv4 /\ length addr = 4%nat) \/
  (atyp = TypeIPv6 /\ length addr = 16%nat) \/
  (atyp = TypeDomain /\ (length addr <= 255)%nat).

(** The credential check of the README: one user, [admin]. *)
Definition readmeChecker (username password : string) : bool :=
  String.eqb username "admin" && String.eqb password "123456".

Definition noAuthConfig : Config :=
  mkConfig MethodNoAuth (Some readmeChecker) 5000000000.

Definition passwordConfig : Config :=
  mkConfig MethodPassword (Some readmeChecker) 5000000000.

(** A network on which every dial is refused. *)
Definition refusing : string -> Z -> Target + error :=
  fun _ _ => inr (ErrOther "connection refused").

(** How a copy that has returned [r] shows as the outcome of [forward]. *)
Definition returned (r : option (option error)) : outcome unit :=
  match r with
  | None => Pending
  | Some None => Ok tt
  | Some (Some e) => Err e
  end.

(** What [io.Copy(dst, src)] returns when it runs on its own: one turn for
    each byte left to read, and one more, are enough for it to return. *)
Definition io_Copy_result (dst src : Conn) : option (option error) :=
  fst (fst (io_Copy (S (length (rd src))) dst src)).

(** The number of turns [sched] gives to the main goroutine. *)
Fixpoint main_turns (sched : list thread) : nat :=
  match sched with
  | [] => O
  | Main :: sched' => S (main_turns sched')
  | Spawned :: sched' => main_turns sched'
  end.

(** What the copy of the main goroutine reads and changes: the incoming side
    of the target and the outgoing side of the client. *)
Definition main_view (conn targetConn : Conn) :=
  (rd targetConn, rend targetConn, closed targetConn,
   (wr conn, wcap conn, werr conn, closed conn)).

(** [c'] is [c] after some reading: a tail of the incoming bytes is left
    and nothing else of the connection has changed. *)
Definition reads_only (c c' : Conn) : Prop :=
  (exists consumed, rd c = consumed ++ rd c') /\ c' = set_rd (rd c') c.

(** The computation [m] only reads from the connection, returns or fails
    with an error (no panic), and its results satisfy [Q]. *)
Definition reader {A} (m : M Conn A) (Q : A -> Prop) : Prop :=
  forall c,
    reads_only c (snd (m c)) /\
    match fst (m c) with
    | Ok a => Q a
    | Err _ => True
    | Panic _ => False
    | Pending => False
    end.

(** The address [handleTCP] dials for the message [m]. *)
Definition target_address (m : ClientRequestMessage) : string :=
  String.append (TargetIP m) (String.append ":" (decimal (Port m))).

(** The computation [m] dials nothing. *)
Definition keeps_dialed {A} (m : M World A) : Prop :=
  forall w, dialed (snd (m w)) = dialed w.

(** A network on which every dial reaches a target bound locally to
    127.0.0.1:1080, which sends two bytes and closes its side. *)
Definition loopback : string -> Z -> Target + error :=
  fun _ _ => inl (mkTarget (conn_of (bytes "OK")) [x7f; x00; x00; x01] 1080).

(** * Properties *)

(** ** Bytes *)

Lemma Z_of_byte_range (b : byte) : 0 <= Z_of_byte b <= 255.
Proof.
  unfold Z_of_byte. pose proof (Byte.to_N_bounded b). lia.
Qed.

Lemma byte_of_Z_of_byte (b : byte) : byte_of_Z (Z_of_byte b) = b.
Proof.
  unfold byte_of_Z. pose proof (Z_of_byte_range b).
  rewrite Z.mod_small by lia. unfold Z_of_byte.
  rewrite N2Z.id, Byte.of_to_N. reflexivity.
Qed.

Lemma Z_of_byte_of_Z (z : Z) : Z_of_byte (byte_of_Z z) = z mod 256.
Proof.
  unfold byte_of_Z, Z_of_byte.
  pose proof (Z.mod_pos_bound z 256 ltac:(lia)) as Hm.
  destruct (Byte.of_N (Z.to_N (z mod 256))) as [b|] eqn:E.
  - apply Byte.to_of_N in E. rewrite E. lia.
  - apply Byte.of_N_None_iff in E. lia.
Qed.

Lemma Z_of_byte_small (z : Z) : 0 <= z <= 255 -> Z_of_byte (byte_of_Z z) = z.
Proof.
  intros. rewrite Z_of_byte_of_Z. apply Z.mod_small. lia.
Qed.

Lemma byte_eqb_refl (b : byte) : Byte.eqb b b = true.
Proof. apply Byte.byte_dec_lb. reflexivity. Qed.

Lemma byte_eqb_neq (a b : byte) : a <> b -> Byte.eqb a b = false.
Proof.
  intros H. destruct (Byte.eqb a b) eqn:E; [|reflexivity].
  apply Byte.byte_dec_bl in E. contradiction.
Qed.

Lemma port_of_bytes_big_endian (b0 b1 : byte) :
  port_of_bytes b0 b1 = Z_of_byte b0 * 256 + Z_of_byte b1.
Proof.
  unfold port_of_bytes, wrap16.
  pose proof (Z_of_byte_range b0). pose proof (Z_of_byte_range b1).
  rewrite Z.shiftl_mul_pow2 by lia. change (2 ^ 8) with 256.
  rewrite (Z.mod_small (Z_of_byte b0 * 256)) by lia.
  apply Z.mod_small. lia.
Qed.

Lemma port_bytes_big_endian (port : Z) :
  0 <= port < 65536 ->
  port_bytes port = [byte_of_Z (port / 256); byte_of_Z (port mod 256)].
Proof.
  intros Hp. unfold port_bytes, wrap16.
  rewrite Z.shiftr_div_pow2 by lia. change (2 ^ 8) with 256.
  assert (Hq : 0 <= port / 256 <= 255).
  { split; [apply Z.div_pos; lia | apply Z.lt_succ_r, Z.div_lt_upper_bound; lia]. }
  rewrite Z_of_byte_small by lia.
  rewrite Z.shiftl_mul_pow2 by lia. change (2 ^ 8) with 256.
  pose proof (Z.div_mod port 256 ltac:(lia)) as Hd.
  pose proof (Z.mod_pos_bound port 256 ltac:(lia)) as Hm.
  rewrite (Z.mod_small (port / 256 * 256)) by lia.
  replace (port - port / 256 * 256) with (port mod 256) by lia.
  rewrite (Z.mod_small (port mod 256) 65536) by lia.
  reflexivity.
Qed.

Lemma port_bytes_inverse (port : Z) :
  0 <= port < 65536 ->
  port_of_bytes (byte_of_Z (port / 256)) (byte_of_Z (port mod 256)) = port.
Proof.
  intros Hp. rewrite port_of_bytes_big_endian.
  assert (Hq : 0 <= port / 256 <= 255).
  { split; [apply Z.div_pos; lia | apply Z.lt_succ_r, Z.div_lt_upper_bound; lia]. }
  pose proof (Z.mod_pos_bound port 256 ltac:(lia)) as Hm.
  rewrite !Z_of_byte_small by lia.
  pose proof (Z.div_mod port 256 ltac:(lia)). lia.
Qed.

(** ** Reading and writing *)

Lemma set_rd_same (c : Conn) : set_rd (rd c) c = c.
Proof. destruct c; reflexivity. Qed.

Lemma ReadFull_exact (buf data rest : list byte) (c : Conn) :
  closed c = false ->
  rd c = data ++ rest ->
  length data = length buf ->
  ReadFull buf c = (Ok data, set_rd rest c).
Proof.
  intros Hc Hrd Hlen. unfold ReadFull. rewrite <- Hlen.
  destruct data as [|d data'].
  - simpl in *. rewrite <- Hrd, set_rd_same. reflexivity.
  - cbn [length]. rewrite Hc.
    replace (S (length data') <=? length (rd c))%nat with true.
    + change (S (length data')) with (length (d :: data')).
      rewrite Hrd, firstn_app, Nat.sub_diag, firstn_all, firstn_O, app_nil_r.
      rewrite skipn_app, Nat.sub_diag, skipn_all. reflexivity.
    + symmetry. apply Nat.leb_le. rewrite Hrd, length_app. cbn [length]. lia.
Qed.

Lemma ReadFull_inv (buf data : list byte) (c c' : Conn) :
  ReadFull buf c = (Ok data, c') ->
  length data = length buf /\ rd c = data ++ rd c' /\ c' = set_rd (rd c') c.
Proof.
  unfold ReadFull. destruct (length buf) as [|n] eqn:En.
  - intros H. inversion H; subst. rewrite set_rd_same. auto.
  - remember (S n) as k eqn:Ek.
    destruct (closed c); [discriminate|].
    destruct (k <=? length (rd c))%nat eqn:El; [|discriminate].
    intros H. injection H as Hd Hc'. subst data c'.
    apply Nat.leb_le in El. unfold set_rd at 1. cbn [rd].
    rewrite firstn_skipn, length_firstn. repeat split. lia.
Qed.

Lemma Write_room (p : list byte) (c : Conn) :
  room (length p) c ->
  exists cap, Write p c = (Ok tt, set_wr (wr c ++ p) cap c) /\
              forall n, room (n + length p) c -> room n (set_wr (wr c ++ p) cap c).
Proof.
  intros [Hc Hr]. unfold Write. rewrite Hc.
  destruct (wcap c) as [k|] eqn:Ek.
  - apply Nat.leb_le in Hr. rewrite Hr. eexists. split; [reflexivity|].
    intros n [_ Hn]. rewrite Ek in Hn. split; [exact Hc|]. cbn. lia.
  - eexists. split; [reflexivity|]. intros n _. split; [exact Hc|]. cbn. exact I.
Qed.

Lemma set_rd_set_rd (a b : list byte) (c : Conn) : set_rd a (set_rd b c) = set_rd a c.
Proof. reflexivity. Qed.

Lemma length_make (n : Z) : length (make n) = Z.to_nat n.
Proof. unfold make. apply repeat_length. Qed.

Lemma len_app (a b : list byte) : len (a ++ b) = len a + len b.
Proof. unfold len. rewrite length_app. lia. Qed.

Lemma len_nonneg (a : list byte) : 0 <= len a.
Proof. unfold len. lia. Qed.

Lemma slice_to_app (a b : list byte) : slice_to (a ++ b) (len a) = Some a.
Proof.
  unfold slice_to. rewrite len_app.
  pose proof (len_nonneg a). pose proof (len_nonneg b).
  replace (0 <=? len a) with true by (symmetry; apply Z.leb_le; lia).
  replace (len a <=? len a + len b) with true by (symmetry; apply Z.leb_le; lia).
  cbn [andb]. unfold len. rewrite Nat2Z.id.
  rewrite firstn_app, Nat.sub_diag, firstn_all, firstn_O, app_nil_r. reflexivity.
Qed.

Lemma slice_to_length (buf out : list byte) (hi : Z) :
  slice_to buf hi = Some out -> 0 <= hi <= len buf /\ len out = hi /\ out = firstn (Z.to_nat hi) buf.
Proof.
  unfold slice_to. destruct (0 <=? hi) eqn:E0; [|discriminate].
  destruct (hi <=? len buf) eqn:E1; [|discriminate].
  cbn [andb]. intros H. injection H as <-.
  apply Z.leb_le in E0. apply Z.leb_le in E1.
  unfold len in *. rewrite length_firstn. repeat split; lia.
Qed.

Lemma index_app (a r : list byte) (b : byte) : index (a ++ b :: r) (len a) = Some b.
Proof.
  unfold index. rewrite len_app.
  pose proof (len_nonneg a). pose proof (len_nonneg (b :: r)).
  assert (0 < len (b :: r)) by (unfold len; cbn [length]; lia).
  replace (0 <=? len a) with true by (symmetry; apply Z.leb_le; lia).
  replace (len a <? len a + len (b :: r)) with true by (symmetry; apply Z.ltb_lt; lia).
  cbn [andb]. unfold len. rewrite Nat2Z.id.
  rewrite nth_error_app2 by lia. rewrite Nat.sub_diag. reflexivity.
Qed.

Lemma ReadFullTo_exact (buf data rest : list byte) (hi : Z) (c : Conn) :
  closed c = false ->
  0 <= hi <= len buf ->
  rd c = data ++ rest ->
  len data = hi ->
  ReadFullTo buf hi c = (Ok (data ++ skipn (Z.to_nat hi) buf), set_rd rest c).
Proof.
  intros Hc Hhi Hrd Hlen. unfold ReadFullTo, bind, checked, slice_to.
  replace (0 <=? hi) with true by (symmetry; apply Z.leb_le; lia).
  replace (hi <=? len buf) with true by (symmetry; apply Z.leb_le; lia).
  cbn [andb ret].
  assert (Hl : length (firstn (Z.to_nat hi) buf) = Z.to_nat hi).
  { rewrite length_firstn. unfold len in Hhi. lia. }
  rewrite (ReadFull_exact _ data rest c Hc Hrd).
  - rewrite Hl. reflexivity.
  - rewrite Hl. unfold len in Hlen. lia.
Qed.

Lemma ReadFullTo_inv (buf out : list byte) (hi : Z) (c c' : Conn) :
  ReadFullTo buf hi c = (Ok out, c') ->
  exists data, 0 <= hi <= len buf /\ len data = hi /\ rd c = data ++ rd c' /\
               c' = set_rd (rd c') c /\ out = data ++ skipn (Z.to_nat hi) buf.
Proof.
  unfold ReadFullTo, bind, checked.
  destruct (slice_to buf hi) as [dst|] eqn:Es; [|discriminate].
  apply slice_to_length in Es. destruct Es as (Hhi & Hl & _).
  cbn [ret]. destruct (ReadFull dst c) as [[data| | |] c1] eqn:Er; try discriminate.
  intros H. injection H as <- <-.
  apply ReadFull_inv in Er. destruct Er as (Hd & Hrd & Hc).
  exists data. unfold len in *. repeat split; try lia; try assumption.
  f_equal. f_equal. lia.
Qed.

(** ** The greeting *)

Lemma NewClientAuthMessage_bad_version (c : Conn) (v n : byte) (rest : list byte) :
  closed c = false ->
  rd c = v :: n :: rest ->
  v <> SOCKS5Version ->
  NewClientAuthMessage c = (Err ErrVersionNotSupported, set_rd rest c).
Proof.
  intros Hc Hrd Hv. unfold NewClientAuthMessage, bind.
  rewrite (ReadFull_exact (make 2) [v; n] rest c Hc Hrd eq_refl).
  rewrite (byte_eqb_neq _ _ Hv). reflexivity.
Qed.

Lemma NewClientAuthMessage_greeting (c : Conn) (methods rest : list byte) :
  closed c = false ->
  (length methods <= 255)%nat ->
  rd c = SOCKS5Version :: byte_of_Z (len methods) :: methods ++ rest ->
  NewClientAuthMessage c =
    (Ok (mkClientAuthMessage SOCKS5Version (byte_of_Z (len methods)) methods),
     set_rd rest c).
Proof.
  intros Hc Hl Hrd. unfold NewClientAuthMessage, bind.
  rewrite (ReadFull_exact (make 2) [SOCKS5Version; byte_of_Z (len methods)]
             (methods ++ rest) c Hc Hrd eq_refl).
  rewrite byte_eqb_refl. cbn [negb].
  rewrite (ReadFull_exact _ methods rest (set_rd (methods ++ rest) c) Hc eq_refl).
  - reflexivity.
  - rewrite length_make, Z_of_byte_small by (unfold len; lia). unfold len. lia.
Qed.

Lemma NewClientAuthMessage_inv (c c' : Conn) (m : ClientAuthMessage) :
  NewClientAuthMessage c = (Ok m, c') ->
  rd c = SOCKS5Version :: NMethods m :: Methods m ++ rd c' /\
  len (Methods m) = Z_of_byte (NMethods m) /\
  c' = set_rd (rd c') c.
Proof.
  unfold NewClientAuthMessage, bind.
  destruct (ReadFull (make 2) c) as [[buf| | |] c1] eqn:E1; try discriminate.
  apply ReadFull_inv in E1. destruct E1 as (Hl1 & Hrd1 & Hc1).
  destruct buf as [|v [|n [|? ?]]]; try discriminate.
  destruct (Byte.eqb v SOCKS5Version) eqn:Ev; [|discriminate].
  apply Byte.byte_dec_bl in Ev. subst v. cbn [negb].
  destruct (ReadFull (make (Z_of_byte n)) c1) as [[buf| | |] c2] eqn:E2; try discriminate.
  apply ReadFull_inv in E2. destruct E2 as (Hl2 & Hrd2 & Hc2).
  intros H. injection H as <- <-. cbn [Methods NMethods].
  rewrite Hrd1, Hrd2. repeat split.
  - unfold len. rewrite Hl2, length_make. pose proof (Z_of_byte_range n). lia.
  - rewrite Hc2, Hc1. reflexivity.
Qed.

(** ** The password sub-negotiation message *)

Lemma NewClientPasswordMessage_wire (c : Conn) (u p rest : list byte) :
  closed c = false ->
  (length u <= 254)%nat ->
  (length p <= 255)%nat ->
  rd c = [PasswordMethodVersion; byte_of_Z (len u)] ++ u
         ++ [byte_of_Z (len p)] ++ p ++ rest ->
  NewClientPasswordMessage c =
    (Ok (mkClientPasswordMessage (string_of_bytes u) (string_of_bytes p)),
     set_rd rest c).
Proof.
  intros Hc Hu Hp Hrd. unfold NewClientPasswordMessage, bind.
  rewrite (ReadFull_exact (make 2) [PasswordMethodVersion; byte_of_Z (len u)]
             (u ++ [byte_of_Z (len p)] ++ p ++ rest) c Hc Hrd eq_refl).
  rewrite byte_eqb_refl. cbn [negb].
  assert (Hadd : Z_of_byte (byte_add (byte_of_Z (len u)) x01) = len u + 1).
  { unfold byte_add. rewrite (Z_of_byte_small (len u)) by (unfold len; lia).
    change (Z_of_byte x01) with 1. apply Z_of_byte_small. unfold len. lia. }
  rewrite Hadd.
  rewrite (ReadFull_exact _ (u ++ [byte_of_Z (len p)]) (p ++ rest)
             (set_rd (u ++ [byte_of_Z (len p)] ++ p ++ rest) c) Hc).
  2:{ cbn [rd set_rd]. rewrite <- app_assoc. reflexivity. }
  2:{ rewrite length_make, length_app. cbn [length]. unfold len. lia. }
  rewrite set_rd_set_rd.
  replace (len (u ++ [byte_of_Z (len p)]) - 1) with (len u)
    by (rewrite len_app; unfold len; cbn [length]; lia).
  rewrite slice_to_app, index_app. cbn [checked ret].
  rewrite (Z_of_byte_small (len p)) by (unfold len; lia).
  set (buf := if len (u ++ [byte_of_Z (len p)]) <? len p
              then make (len p) else u ++ [byte_of_Z (len p)]).
  assert (Hbuf : len p <= len buf).
  { subst buf. destruct (len (u ++ [byte_of_Z (len p)]) <? len p) eqn:E.
    - unfold len at 2. rewrite length_make. unfold len. lia.
    - apply Z.ltb_ge in E. exact E. }
  pose proof (len_nonneg p).
  rewrite (ReadFullTo_exact buf p rest (len p) (set_rd (p ++ rest) c) Hc)
    by (try reflexivity; lia).
  rewrite slice_to_app. reflexivity.
Qed.

Lemma NewClientPasswordMessage_ulen_255 (c : Conn) (rest : list byte) :
  closed c = false ->
  rd c = PasswordMethodVersion :: xff :: rest ->
  NewClientPasswordMessage c = (Panic "slice bounds out of range", set_rd rest c).
Proof.
  intros Hc Hrd. unfold NewClientPasswordMessage, bind.
  rewrite (ReadFull_exact (make 2) [PasswordMethodVersion; xff] rest c Hc Hrd eq_refl).
  rewrite byte_eqb_refl. cbn [negb].
  change (make (Z_of_byte (byte_add xff x01))) with (@nil byte).
  reflexivity.
Qed.

(** C3. A password message whose username has the largest length its length
    byte can declare, 255, makes the parser panic: the size of the second
    buffer, [usernameLen+1], is computed on bytes and wraps around to 0, and
    the slice [buf[:len(buf)-1]] of the empty buffer is out of bounds.  Only
    the two leading bytes have been consumed by then. *)
Theorem NewClientPasswordMessage_username_255_panics :
  let input := [x01; xff] ++ repeat x61 255 ++ [x01; x62] in
  fst (NewClientPasswordMessage (conn_of input)) = Panic "slice bounds out of range" /\
  rd (snd (NewClientPasswordMessage (conn_of input))) = repeat x61 255 ++ [x01; x62].
Proof.
  cbv zeta.
  pose proof (NewClientPasswordMessage_ulen_255
                (conn_of ([x01; xff] ++ repeat x61 255 ++ [x01; x62]))
                (repeat x61 255 ++ [x01; x62]) eq_refl eq_refl) as H.
  rewrite H. split; reflexivity.
Qed.

(** ** Method negotiation and authentication *)

Lemma acceptable_In (configured : Method) (methods : list Method) :
  acceptable configured methods = true <-> In configured methods.
Proof.
  induction methods as [|m rest IH]; cbn [acceptable In].
  - split; [discriminate | contradiction].
  - destruct (Byte.eqb m configured) eqn:E.
    + apply Byte.byte_dec_bl in E. tauto.
    + apply Byte.eqb_false in E. rewrite IH. split; [tauto|].
      intros [H|H]; [contradiction | exact H].
Qed.

Lemma auth_not_acceptable (s : Config) (c c1 : Conn) (m : ClientAuthMessage) :
  NewClientAuthMessage c = (Ok m, c1) ->
  acceptable (AuthMethod s) (Methods m) = false ->
  auth s c = (Err ErrVersionNotSupported,
              snd (SendServerAuthMessage MethodNoAcceptable c1)).
Proof.
  intros Hm Ha. unfold auth, bind. rewrite Hm, Ha. cbn [negb].
  unfold discard, throw.
  destruct (SendServerAuthMessage MethodNoAcceptable c1) as [[[]| | |] c2] eqn:E;
    try reflexivity;
    unfold SendServerAuthMessage, Write in E;
    destruct (closed c1); try discriminate;
    destruct (wcap c1); try discriminate;
    destruct (_ <=? _)%nat; discriminate.
Qed.

Lemma auth_selected (s : Config) (c c1 : Conn) (m : ClientAuthMessage) :
  NewClientAuthMessage c = (Ok m, c1) ->
  acceptable (AuthMethod s) (Methods m) = true ->
  AuthMethod s <> MethodPassword ->
  auth s c = SendServerAuthMessage (AuthMethod s) c1.
Proof.
  intros Hm Ha Hp. unfold auth, bind. rewrite Hm, Ha. cbn [negb].
  rewrite (byte_eqb_neq _ _ Hp).
  destruct (SendServerAuthMessage (AuthMethod s) c1) as [[[]| | |] c2]; reflexivity.
Qed.

(** What the negotiation does on every greeting of the wire layout, for a
    configured method other than the password method. *)
Lemma auth_negotiation (s : Config) (c : Conn) (methods rest : list byte) :
  room 2 c ->
  (length methods <= 255)%nat ->
  rd c = SOCKS5Version :: byte_of_Z (len methods) :: methods ++ rest ->
  AuthMethod s <> MethodPassword ->
  (In (AuthMethod s) methods ->
     fst (auth s c) = Ok tt /\
     wr (snd (auth s c)) = wr c ++ [SOCKS5Version; AuthMethod s]) /\
  (~ In (AuthMethod s) methods ->
     fst (auth s c) = Err ErrVersionNotSupported /\
     wr (snd (auth s c)) = wr c ++ [SOCKS5Version; MethodNoAcceptable]).
Proof.
  intros Hroom Hl Hrd Hp.
  pose proof (NewClientAuthMessage_greeting c methods rest (proj1 Hroom) Hl Hrd) as Hm.
  assert (Hroom' : room 2 (set_rd rest c)) by exact Hroom.
  split; intros Hin.
  - rewrite (auth_selected s c _ _ Hm) by (try apply acceptable_In; assumption).
    destruct (Write_room [SOCKS5Version; AuthMethod s] _ Hroom') as (cap & Hw & _).
    unfold SendServerAuthMessage. rewrite Hw. split; reflexivity.
  - rewrite (auth_not_acceptable s c _ _ Hm).
    + destruct (Write_room [SOCKS5Version; MethodNoAcceptable] _ Hroom') as (cap & Hw & _).
      unfold SendServerAuthMessage. rewrite Hw. split; reflexivity.
    + cbn [Methods]. destruct (acceptable (AuthMethod s) methods) eqn:E; [|reflexivity].
      apply acceptable_In in E. contradiction.
Qed.

(** C2. With the no-authentication method configured, the greeting
    [05 01 02], which offers the password method only, is answered by the
    two bytes [05 FF], and [auth] fails with [ErrVersionNotSupported]: the
    error of a greeting with a wrong version byte, as the second part shows,
    and not an error that tells of the methods. *)
Theorem auth_no_acceptable_method_is_version_error :
  auth noAuthConfig (conn_of [x05; x01; x02]) =
    (Err ErrVersionNotSupported,
     mkConn [] EOF [x05; xff] None (ErrOther "write") false) /\
  auth noAuthConfig (conn_of [x04; x01; x02]) =
    (Err ErrVersionNotSupported,
     mkConn [x02] EOF [] None (ErrOther "write") false).
Proof.
  split; reflexivity.
Qed.

(** C4. Once the password message has been parsed, [auth] succeeds exactly
    when the configured check accepts the user name and the password of the
    message, whatever their bytes.  A refusal writes the two bytes [01 01]
    and fails with [ErrPasswordAuthFailure]; an acceptance writes [01 00]. *)
Theorem auth_password_outcome (s : Config) (check : string -> string -> bool)
    (c c1 c2 c3 : Conn) (m : ClientAuthMessage) (cpm : ClientPasswordMessage) :
  AuthMethod s = MethodPassword ->
  PasswordChecker s = Some check ->
  NewClientAuthMessage c = (Ok m, c1) ->
  acceptable MethodPassword (Methods m) = true ->
  SendServerAuthMessage MethodPassword c1 = (Ok tt, c2) ->
  NewClientPasswordMessage c2 = (Ok cpm, c3) ->
  room 2 c3 ->
  (fst (auth s c) = Ok tt <-> check (Username cpm) (Password cpm) = true) /\
  (check (Username cpm) (Password cpm) = false ->
     fst (auth s c) = Err ErrPasswordAuthFailure /\
     rd (snd (auth s c)) = rd c3 /\
     wr (snd (auth s c)) = wr c3 ++ [PasswordMethodVersion; PasswordAuthFailure]) /\
  (check (Username cpm) (Password cpm) = true ->
     rd (snd (auth s c)) = rd c3 /\
     wr (snd (auth s c)) = wr c3 ++ [PasswordMethodVersion; PasswordAuthSuccess]).
Proof.
  intros Hmeth Hchk Hm Ha Hsend Hpw Hroom.
  assert (Hauth : auth s c =
            if check (Username cpm) (Password cpm)
            then WriteServerPasswordMessage PasswordAuthSuccess c3
            else (Err ErrPasswordAuthFailure,
                  snd (WriteServerPasswordMessage PasswordAuthFailure c3))).
  { unfold auth, bind. rewrite Hm, Hmeth, Ha. cbn [negb]. rewrite Hsend.
    change (Byte.eqb MethodPassword MethodPassword) with true. cbv beta iota.
    rewrite Hpw, Hchk. cbn [ret].
    destruct (check (Username cpm) (Password cpm)); cbn [negb].
    - destruct (WriteServerPasswordMessage PasswordAuthSuccess c3) as [[[]| | |] c4];
        reflexivity.
    - unfold discard, throw.
      destruct (WriteServerPasswordMessage PasswordAuthFailure c3) as [[[]| | |] c4] eqn:E;
        try reflexivity;
        unfold WriteServerPasswordMessage, Write in E;
        destruct (closed c3); try discriminate;
        destruct (wcap c3); try discriminate;
        destruct (_ <=? _)%nat; discriminate. }
  rewrite Hauth. unfold WriteServerPasswordMessage.
  destruct (Write_room [PasswordMethodVersion; PasswordAuthSuccess] c3 Hroom)
    as (cap0 & Hw0 & _).
  destruct (Write_room [PasswordMethodVersion; PasswordAuthFailure] c3 Hroom)
    as (cap1 & Hw1 & _).
  rewrite Hw0, Hw1.
  destruct (check (Username cpm) (Password cpm)); cbn [fst snd].
  - repeat split; auto; discriminate.
  - repeat split; auto; discriminate.
Qed.

Lemma auth_password_outcome_witness :
  let c := conn_of ([x05; x01; x02] ++ [x01; x05] ++ bytes "admin"
                    ++ [x06] ++ bytes "123456") in
  (fst (auth passwordConfig c) = Ok tt <-> readmeChecker "admin" "123456" = true) /\
  wr (snd (auth passwordConfig c)) = [x05; x02; x01; x00].
Proof.
  cbv zeta.
  pose proof (auth_password_outcome passwordConfig readmeChecker
                (conn_of ([x05; x01; x02] ++ [x01; x05] ++ bytes "admin"
                          ++ [x06] ++ bytes "123456"))
                (conn_of ([x01; x05] ++ bytes "admin" ++ [x06] ++ bytes "123456"))
                (mkConn ([x01; x05] ++ bytes "admin" ++ [x06] ++ bytes "123456")
                        EOF [x05; x02] None (ErrOther "write") false)
                (mkConn [] EOF [x05; x02] None (ErrOther "write") false)
                (mkClientAuthMessage x05 x01 [x02])
                (mkClientPasswordMessage "admin" "123456")
                eq_refl eq_refl eq_refl eq_refl eq_refl eq_refl
                (conj eq_refl I)) as (Hiff & _ & Hok).
  split; [exact Hiff | exact (proj2 (Hok eq_refl))].
Defined.

(** C7. A greeting whose version byte is not 5 ends the handling of the
    connection with [ErrVersionNotSupported]: the two leading bytes have been
    read, nothing has been written to the client and nothing dialed. *)
Theorem handleConnection_bad_version
    (IP_String : list byte -> string) (DialTimeout : string -> Z -> Target + error)
    (sched : list thread) (s : Config) (w : World) (v n : byte) (rest : list byte) :
  closed (client w) = false ->
  rd (client w) = v :: n :: rest ->
  v <> SOCKS5Version ->
  handleConnection IP_String DialTimeout sched s w =
    (Err ErrVersionNotSupported,
     mkWorld (set_rd rest (client w)) (target w) (dialed w)) /\
  wr (client (snd (handleConnection IP_String DialTimeout sched s w))) = wr (client w).
Proof.
  intros Hc Hrd Hv.
  assert (H : handleConnection IP_String DialTimeout sched s w =
              (Err ErrVersionNotSupported,
               mkWorld (set_rd rest (client w)) (target w) (dialed w))).
  { unfold handleConnection, bind, on_client, auth. unfold bind at 1.
    rewrite (NewClientAuthMessage_bad_version _ v n rest Hc Hrd Hv). reflexivity. }
  rewrite H. split; reflexivity.
Qed.

Lemma handleConnection_bad_version_witness :
  handleConnection net_IP_String refusing [] noAuthConfig
    (accepted (conn_of [x04; x01; x00])) =
  (Err ErrVersionNotSupported, accepted (conn_of [x00])).
Proof.
  refine (proj1 (handleConnection_bad_version net_IP_String refusing [] noAuthConfig
                   (accepted (conn_of [x04; x01; x00])) x04 x01 [x00]
                   eq_refl eq_refl _)).
  discriminate.
Defined.

(** ** The request parser *)

Lemma index_0 (a : byte) (l : list byte) : index (a :: l) 0 = Some a.
Proof.
  unfold index, len. cbn [length].
  replace (0 <? Z.of_nat (S (length l))) with true by (symmetry; apply Z.ltb_lt; lia).
  reflexivity.
Qed.

Lemma index_1 (a b : byte) (l : list byte) : index (a :: b :: l) 1 = Some b.
Proof.
  unfold index, len. cbn [length].
  replace (1 <? Z.of_nat (S (S (length l)))) with true by (symmetry; apply Z.ltb_lt; lia).
  reflexivity.
Qed.

Lemma len_2_inv (data : list byte) : len data = 2 -> exists b0 b1, data = [b0; b1].
Proof.
  unfold len. destruct data as [|b0 [|b1 [|? ?]]]; cbn [length]; try lia.
  intros _. eauto.
Qed.

Lemma len_1_inv (data : list byte) : len data = 1 -> exists b0, data = [b0].
Proof.
  unfold len. destruct data as [|b0 [|? ?]]; cbn [length]; try lia.
  intros _. eauto.
Qed.

(** The last step of the parser: two bytes read into the front of the buffer
    and put together as the port. *)
Lemma read_port_inv (buf : list byte) (c c' : Conn) (cmd atyp : byte) (ip : string)
    (m : ClientRequestMessage) :
  (buf <- ReadFullTo buf PortLength ;;
   b0 <- checked (index buf 0) "index out of range" ;;
   b1 <- checked (index buf 1) "index out of range" ;;
   ret (mkClientRequestMessage cmd atyp ip (port_of_bytes b0 b1))) c = (Ok m, c') ->
  exists b0 b1,
    rd c = [b0; b1] ++ rd c' /\ c' = set_rd (rd c') c /\
    m = mkClientRequestMessage cmd atyp ip (port_of_bytes b0 b1).
Proof.
  unfold bind.
  destruct (ReadFullTo buf PortLength c) as [[out| | |] c1] eqn:E; try discriminate.
  apply ReadFullTo_inv in E. destruct E as (data & _ & Hl & Hrd & Hc & Hout).
  apply len_2_inv in Hl. destruct Hl as (b0 & b1 & ->).
  subst out. cbn [app]. rewrite index_0, index_1. cbn [checked ret].
  intros H. injection H as <- <-. exists b0, b1. auto.
Qed.

Lemma NewClientRequestMessage_inv (IP_String : list byte -> string)
    (c c' : Conn) (m : ClientRequestMessage) :
  NewClientRequestMessage IP_String c = (Ok m, c') ->
  exists addr b0 b1,
    rd c = [SOCKS5Version; Cmd m; ReservedField; AddrType m] ++ addr
           ++ [b0; b1] ++ rd c' /\
    Port m = port_of_bytes b0 b1 /\
    (Cmd m = CmdConnect \/ Cmd m = CmdBind \/ Cmd m = CmdUDP) /\
    (AddrType m = TypeIPv4 \/ AddrType m = TypeIPv6 \/ AddrType m = TypeDomain) /\
    c' = set_rd (rd c') c.
Proof.
  unfold NewClientRequestMessage. unfold bind at 1.
  destruct (ReadFull (make 4) c) as [[buf| | |] c1] eqn:E1; try discriminate.
  apply ReadFull_inv in E1. destruct E1 as (Hl1 & Hrd1 & Hc1).
  destruct buf as [|v [|cmd [|rsv [|atyp [|? ?]]]]]; try discriminate.
  destruct (Byte.eqb v SOCKS5Version) eqn:Ev; [|discriminate].
  apply Byte.byte_dec_bl in Ev. subst v. cbn [negb].
  assert (Hcmd : cmd = CmdConnect \/ cmd = CmdBind \/ cmd = CmdUDP \/
                 negb (Byte.eqb cmd CmdConnect) && negb (Byte.eqb cmd CmdBind)
                 && negb (Byte.eqb cmd CmdUDP) = true).
  { destruct (Byte.eqb cmd CmdConnect) eqn:A; [apply Byte.byte_dec_bl in A; auto|].
    destruct (Byte.eqb cmd CmdBind) eqn:B; [apply Byte.byte_dec_bl in B; auto|].
    destruct (Byte.eqb cmd CmdUDP) eqn:C; [apply Byte.byte_dec_bl in C; auto|].
    auto. }
  assert (Hat : atyp = TypeIPv4 \/ atyp = TypeIPv6 \/ atyp = TypeDomain \/
                negb (Byte.eqb atyp TypeIPv4) && negb (Byte.eqb atyp TypeIPv6)
                && negb (Byte.eqb atyp TypeDomain) = true).
  { destruct (Byte.eqb atyp TypeIPv4) eqn:A; [apply Byte.byte_dec_bl in A; auto|].
    destruct (Byte.eqb atyp TypeIPv6) eqn:B; [apply Byte.byte_dec_bl in B; auto|].
    destruct (Byte.eqb atyp TypeDomain) eqn:C; [apply Byte.byte_dec_bl in C; auto|].
    auto 6. }
  destruct (negb (Byte.eqb cmd CmdConnect) && negb (Byte.eqb cmd CmdBind)
            && negb (Byte.eqb cmd CmdUDP)) eqn:Ecmd; [discriminate|].
  destruct (Byte.eqb rsv ReservedField) eqn:Er; [|discriminate].
  apply Byte.byte_dec_bl in Er. subst rsv. cbn [negb].
  destruct (negb (Byte.eqb atyp TypeIPv4) && negb (Byte.eqb atyp TypeIPv6)
            && negb (Byte.eqb atyp TypeDomain)) eqn:Eat; [discriminate|].
  assert (Hcmd' : cmd = CmdConnect \/ cmd = CmdBind \/ cmd = CmdUDP)
    by (destruct Hcmd as [?|[?|[?|?]]]; auto; discriminate).
  assert (Hat' : atyp = TypeIPv4 \/ atyp = TypeIPv6 \/ atyp = TypeDomain)
    by (destruct Hat as [?|[?|[?|?]]]; auto; discriminate).
  clear Hcmd Hat Ecmd Eat.
  unfold bind at 1.
  match goal with
  | |- (let (_, _) := ?addrStep c1 in _) = _ -> _ =>
    destruct (addrStep c1) as [[[buf ip]| | |] c2] eqn:E2; try discriminate
  end.
  intros Hport. apply read_port_inv in Hport.
  destruct Hport as (b0 & b1 & Hrd3 & Hc3 & ->). cbn [Cmd AddrType Port].
  assert (Haddr : exists addr, rd c1 = addr ++ rd c2 /\ c2 = set_rd (rd c2) c1).
  { destruct Hat' as [ -> | [ -> | -> ] ].
    - change (Byte.eqb TypeIPv4 TypeIPv6) with false in E2.
      change (Byte.eqb TypeIPv4 TypeIPv4) with true in E2. cbv iota in E2.
      unfold bind in E2.
      destruct (ReadFull _ c1) as [[out| | |] c1'] eqn:E; try discriminate.
      injection E2 as _ _ <-. apply ReadFull_inv in E.
      destruct E as (_ & Hrd & Hc). eauto.
    - change (Byte.eqb TypeIPv6 TypeIPv6) with true in E2. cbv iota in E2.
      unfold bind in E2.
      destruct (ReadFull _ c1) as [[out| | |] c1'] eqn:E; try discriminate.
      injection E2 as _ _ <-. apply ReadFull_inv in E.
      destruct E as (_ & Hrd & Hc). eauto.
    - change (Byte.eqb TypeDomain TypeIPv6) with false in E2.
      change (Byte.eqb TypeDomain TypeIPv4) with false in E2.
      change (Byte.eqb TypeDomain TypeDomain) with true in E2. cbv iota in E2.
      unfold bind in E2.
      destruct (ReadFullTo _ 1 c1) as [[out| | |] c1'] eqn:Ea; try discriminate.
      apply ReadFullTo_inv in Ea. destruct Ea as (d1 & _ & _ & Hrda & Hca & _).
      destruct (checked (index out 0) _ c1') as [[dl| | |] c1''] eqn:Eb;
        try discriminate.
      assert (c1'' = c1') by (destruct (index out 0); inversion Eb; reflexivity).
      subst c1''.
      destruct (ReadFullTo _ (Z_of_byte dl) c1') as [[out2| | |] c1''] eqn:Ec;
        try discriminate.
      apply ReadFullTo_inv in Ec. destruct Ec as (d2 & _ & _ & Hrdc & Hcc & _).
      destruct (checked (slice_to out2 (Z_of_byte dl)) _ c1'') as [[dom| | |] c1'''] eqn:Ed;
        try discriminate.
      assert (c1''' = c1'') by (destruct (slice_to out2 (Z_of_byte dl)); inversion Ed; reflexivity).
      subst c1'''. injection E2 as _ _ <-.
      exists (d1 ++ d2). rewrite <- app_assoc, <- Hrdc, <- Hrda. split; [reflexivity|].
      rewrite Hcc, Hca. reflexivity. }
  destruct Haddr as (addr & Hrd2 & Hc2).
  exists addr, b0, b1. repeat split; try assumption.
  - rewrite Hrd1. cbn [app]. rewrite Hrd2, Hrd3. reflexivity.
  - rewrite Hc3, Hc2, Hc1. reflexivity.
Qed.

Lemma encodeRequest_layout (m : ClientRequestMessage) (addr rest : list byte) :
  encodeRequest m addr ++ rest =
  [SOCKS5Version; Cmd m; ReservedField; AddrType m]
  ++ ((if Byte.eqb (AddrType m) TypeDomain then [byte_of_Z (len addr)] else [])
      ++ addr ++ [byte_of_Z (Port m / 256); byte_of_Z (Port m mod 256)] ++ rest).
Proof.
  unfold encodeRequest. rewrite <- !app_assoc. reflexivity.
Qed.

Lemma read_port_exact (buf rest : list byte) (c : Conn) (cmd atyp : byte)
    (ip : string) (port : Z) :
  closed c = false ->
  2 <= len buf ->
  0 <= port < 65536 ->
  rd c = [byte_of_Z (port / 256); byte_of_Z (port mod 256)] ++ rest ->
  (buf <- ReadFullTo buf PortLength ;;
   b0 <- checked (index buf 0) "index out of range" ;;
   b1 <- checked (index buf 1) "index out of range" ;;
   ret (mkClientRequestMessage cmd atyp ip (port_of_bytes b0 b1))) c =
  (Ok (mkClientRequestMessage cmd atyp ip port), set_rd rest c).
Proof.
  intros Hc Hb Hp Hrd. unfold bind.
  rewrite (ReadFullTo_exact buf _ rest PortLength c Hc) by
    (try exact Hrd; try reflexivity; unfold PortLength; lia).
  cbn [app]. rewrite index_0, index_1. cbn [checked ret].
  rewrite port_bytes_inverse by exact Hp. reflexivity.
Qed.

(** C8. A request message written in the wire layout
    VER CMD RSV ATYP DST.ADDR DST.PORT is parsed back into the same message:
    same command, same address type, same address and same port, and the
    parser stops right behind the frame.  The message has one of the three
    commands, an address of the length its type asks for (at most 255 bytes
    for a domain name, whose length travels in one byte), a port of 16
    bits, and carries its address as the text the parser renders from the
    wire bytes: the bytes themselves for a domain name, [net.IP.String] of
    them for an IP address. *)
Theorem request_round_trip (IP_String : list byte -> string)
    (m : ClientRequestMessage) (addr rest : list byte) (c : Conn) :
  closed c = false ->
  Cmd m = CmdConnect \/ Cmd m = CmdBind \/ Cmd m = CmdUDP ->
  address_fits (AddrType m) addr ->
  TargetIP m = address_text IP_String (AddrType m) addr ->
  0 <= Port m < 65536 ->
  rd c = encodeRequest m addr ++ rest ->
  NewClientRequestMessage IP_String c = (Ok m, set_rd rest c).
Proof.
  destruct m as [cmd atyp ip port]. cbn [Cmd AddrType TargetIP Port].
  intros Hc Hcmd Hfits Hip Hport Hrd.
  rewrite encodeRequest_layout in Hrd. cbn [Cmd AddrType TargetIP Port] in Hrd.
  unfold NewClientRequestMessage. unfold bind at 1.
  rewrite (ReadFull_exact (make 4) _ _ c Hc Hrd eq_refl).
  change (Byte.eqb SOCKS5Version SOCKS5Version) with true.
  change (Byte.eqb ReservedField ReservedField) with true. cbn [negb].
  replace (negb (Byte.eqb cmd CmdConnect) && negb (Byte.eqb cmd CmdBind)
           && negb (Byte.eqb cmd CmdUDP)) with false
    by (destruct Hcmd as [ -> | [ -> | -> ] ]; reflexivity).
  replace (negb (Byte.eqb atyp TypeIPv4) && negb (Byte.eqb atyp TypeIPv6)
           && negb (Byte.eqb atyp TypeDomain)) with false
    by (destruct Hfits as [ [-> _] | [ [-> _] | [-> _] ] ]; reflexivity).
  set (tail := [byte_of_Z (port / 256); byte_of_Z (port mod 256)] ++ rest) in *.
  destruct Hfits as [ [-> Hl] | [ [-> Hl] | [-> Hl] ] ].
  - (* IPv4 *)
    change (Byte.eqb TypeIPv4 TypeIPv6) with false.
    change (Byte.eqb TypeIPv4 TypeIPv4) with true.
    change (Byte.eqb TypeIPv4 TypeDomain) with false. cbv iota.
    unfold address_text in Hip. change (Byte.eqb TypeIPv4 TypeDomain) with false in Hip.
    unfold bind at 1. unfold bind at 1.
    rewrite (ReadFull_exact _ addr tail (set_rd (addr ++ tail) c) Hc eq_refl)
      by (rewrite Hl; reflexivity).
    cbn [ret]. rewrite set_rd_set_rd.
    rewrite (read_port_exact addr rest (set_rd tail c) cmd TypeIPv4 _ port Hc)
      by (try exact Hport; try reflexivity; unfold len; rewrite Hl; lia).
    rewrite <- Hip. reflexivity.
  - (* IPv6 *)
    change (Byte.eqb TypeIPv6 TypeIPv6) with true.
    change (Byte.eqb TypeIPv6 TypeDomain) with false. cbv iota.
    unfold address_text in Hip. change (Byte.eqb TypeIPv6 TypeDomain) with false in Hip.
    unfold bind at 1. unfold bind at 1.
    rewrite (ReadFull_exact _ addr tail (set_rd (addr ++ tail) c) Hc eq_refl)
      by (rewrite Hl; reflexivity).
    cbn [ret]. rewrite set_rd_set_rd.
    rewrite (read_port_exact addr rest (set_rd tail c) cmd TypeIPv6 _ port Hc)
      by (try exact Hport; try reflexivity; unfold len; rewrite Hl; lia).
    rewrite <- Hip. reflexivity.
  - (* a domain name *)
    change (Byte.eqb TypeDomain TypeIPv6) with false.
    change (Byte.eqb TypeDomain TypeIPv4) with false.
    change (Byte.eqb TypeDomain TypeDomain) with true. cbv iota.
    unfold address_text in Hip. change (Byte.eqb TypeDomain TypeDomain) with true in Hip.
    unfold bind at 1. unfold bind at 1.
    rewrite (ReadFullTo_exact _ [byte_of_Z (len addr)] (addr ++ tail) 1
               (set_rd ([byte_of_Z (len addr)] ++ addr ++ tail) c) Hc)
      by (try reflexivity; unfold len; cbn [length]; lia).
    change (Z.to_nat 1) with 1%nat. cbn [app skipn].
    unfold bind at 1. rewrite index_0. cbn [checked ret].
    rewrite (Z_of_byte_small (len addr)) by (unfold len; lia).
    set (buf := if len addr >? IPv4Length then make (len addr)
                else [byte_of_Z (len addr); cmd; ReservedField; TypeDomain]).
    assert (Hbuf : len addr <= len buf /\ 4 <= len buf).
    { subst buf. unfold IPv4Length. destruct (len addr >? 4) eqn:E.
      - apply Z.gtb_lt in E. unfold len at 2 4. rewrite length_make.
        unfold len in *. lia.
      - pose proof (Zgt_cases (len addr) 4) as G. rewrite E in G.
        unfold len at 2 4. cbn [length]. lia. }
    pose proof (len_nonneg addr).
    unfold bind at 1. rewrite set_rd_set_rd.
    rewrite (ReadFullTo_exact buf addr tail (len addr) (set_rd (addr ++ tail) c) Hc)
      by (try reflexivity; lia).
    unfold bind at 1. rewrite slice_to_app. cbn [checked ret].
    rewrite set_rd_set_rd.
    rewrite (read_port_exact _ rest (set_rd tail c) cmd TypeDomain _ port Hc).
    + rewrite <- Hip. reflexivity.
    + rewrite len_app. unfold len at 2. rewrite length_skipn.
      unfold len in *. lia.
    + exact Hport.
    + reflexivity.
Qed.

Lemma request_round_trip_witness :
  let m := mkClientRequestMessage CmdConnect TypeIPv6 "2001:db8::1" 443 in
  let addr := [x20; x01; x0d; xb8] ++ repeat x00 11 ++ [x01] in
  NewClientRequestMessage net_IP_String (conn_of (encodeRequest m addr ++ [x47; x45; x54]))
  = (Ok m, conn_of [x47; x45; x54]).
Proof.
  cbv zeta.
  apply (request_round_trip net_IP_String
           (mkClientRequestMessage CmdConnect TypeIPv6 "2001:db8::1" 443)
           ([x20; x01; x0d; xb8] ++ repeat x00 11 ++ [x01]) [x47; x45; x54]).
  - reflexivity.
  - left. reflexivity.
  - right. left. split; reflexivity.
  - reflexivity.
  - cbn [Port]. lia.
  - reflexivity.
Defined.

(** C5. The request [05 01 00 03 0B "example.com" 00 50] is parsed as a
    CONNECT to the domain name example.com, port 80; and whenever the parser
    succeeds, the two bytes it consumed last, [b0] then [b1], give the port
    [b0 * 256 + b1]. *)
Theorem request_scenario_and_port (IP_String : list byte -> string) :
  NewClientRequestMessage IP_String
    (conn_of ([x05; x01; x00; x03; x0b] ++ bytes "example.com" ++ [x00; x50]))
  = (Ok (mkClientRequestMessage CmdConnect TypeDomain "example.com" 80), conn_of [])
  /\
  forall (c c' : Conn) (m : ClientRequestMessage),
    NewClientRequestMessage IP_String c = (Ok m, c') ->
    exists consumed b0 b1,
      rd c = consumed ++ [b0; b1] ++ rd c' /\
      Port m = Z_of_byte b0 * 256 + Z_of_byte b1.
Proof.
  split.
  - reflexivity.
  - intros c c' m H. apply NewClientRequestMessage_inv in H.
    destruct H as (addr & b0 & b1 & Hrd & Hp & _).
    exists ([SOCKS5Version; Cmd m; ReservedField; AddrType m] ++ addr), b0, b1.
    split.
    + rewrite Hrd, <- app_assoc. reflexivity.
    + rewrite Hp. apply port_of_bytes_big_endian.
Qed.

Lemma request_scenario_and_port_witness :
  exists consumed b0 b1,
    [x05; x01; x00; x01; x5d; xb8; xd8; x22; x01; xbb] = consumed ++ [b0; b1] ++ [] /\
    443 = Z_of_byte b0 * 256 + Z_of_byte b1.
Proof.
  exact (proj2 (request_scenario_and_port net_IP_String)
           (conn_of [x05; x01; x00; x01; x5d; xb8; xd8; x22; x01; xbb])
           (conn_of [])
           (mkClientRequestMessage CmdConnect TypeIPv4 "93.184.216.34" 443)
           eq_refl).
Defined.

(** ** The replies *)

Lemma Write_outcome (p : list byte) (c : Conn) :
  Write p c = (Ok tt, snd (Write p c)) \/
  exists e, Write p c = (Err e, snd (Write p c)).
Proof.
  unfold Write. destruct (closed c); [right; eauto|].
  destruct (wcap c) as [k|]; [|left; reflexivity].
  destruct (length p <=? k)%nat; [left; reflexivity | right; eauto].
Qed.

Lemma discard_failure_reply (replyType : ReplyType) (w : World) :
  discard (on_client (WriteRequestFailureMessage replyType)) w =
  (Ok tt, mkWorld (snd (WriteRequestFailureMessage replyType (client w)))
                  (target w) (dialed w)).
Proof.
  unfold discard, on_client, WriteRequestFailureMessage.
  destruct (Write_outcome [SOCKS5Version; replyType; ReservedField; TypeIPv4;
                           x00; x00; x00; x00; x00; x00] (client w)) as [H|[e H]];
    rewrite H; reflexivity.
Qed.

Lemma WriteRequestFailureMessage_room (replyType : ReplyType) (c : Conn) :
  room 10 c ->
  wr (snd (WriteRequestFailureMessage replyType c)) =
  wr c ++ [SOCKS5Version; replyType; ReservedField; TypeIPv4;
           x00; x00; x00; x00; x00; x00].
Proof.
  intros Hr. unfold WriteRequestFailureMessage.
  destruct (Write_room [SOCKS5Version; replyType; ReservedField; TypeIPv4;
                        x00; x00; x00; x00; x00; x00] c Hr) as (cap & Hw & _).
  rewrite Hw. reflexivity.
Qed.

(** C6. For a bound address of 4 or of 16 bytes and a port of 16 bits, the
    success reply is, in this order: 05, 00 (success), 00 (reserved), the
    address type (01 for 4 bytes, 04 for 16), the bytes of the address, and
    the port in two bytes, most significant first.  For 127.0.0.1 and port
    1080 the bytes are 05 00 00 01 7F 00 00 01 04 38. *)
Theorem WriteRequestSuccessMessage_frame (ip : list byte) (port : Z) (c : Conn) :
  length ip = 4%nat \/ length ip = 16%nat ->
  0 <= port < 65536 ->
  room (6 + length ip) c ->
  (fst (WriteRequestSuccessMessage ip port c) = Ok tt /\
   wr (snd (WriteRequestSuccessMessage ip port c)) =
     wr c ++ [SOCKS5Version; ReplySuccess; ReservedField;
              if (length ip =? 4)%nat then TypeIPv4 else TypeIPv6]
          ++ ip ++ [byte_of_Z (port / 256); byte_of_Z (port mod 256)]) /\
  WriteRequestSuccessMessage [x7f; x00; x00; x01] 1080 (conn_of []) =
    (Ok tt, mkConn [] EOF [x05; x00; x00; x01; x7f; x00; x00; x01; x04; x38]
                   None (ErrOther "write") false).
Proof.
  intros Hl Hp Hr. split; [|reflexivity].
  unfold WriteRequestSuccessMessage, bind.
  rewrite (port_bytes_big_endian port Hp).
  replace (if len ip >? IPv4Length then TypeIPv6 else TypeIPv4)
    with (if (length ip =? 4)%nat then TypeIPv4 else TypeIPv6)
    by (unfold len; destruct Hl as [-> | ->]; reflexivity).
  set (hdr := [SOCKS5Version; ReplySuccess; ReservedField;
               if (length ip =? 4)%nat then TypeIPv4 else TypeIPv6]).
  set (pb := [byte_of_Z (port / 256); byte_of_Z (port mod 256)]).
  assert (R1 : room (length hdr) c).
  { destruct Hr as [Hc Hk]. split; [exact Hc|].
    destruct (wcap c); [cbn [length hdr] in *; lia | exact I]. }
  destruct (Write_room hdr c R1) as (cap1 & W1 & K1). rewrite W1.
  assert (R2 : room (2 + length ip) (set_wr (wr c ++ hdr) cap1 c)).
  { apply K1. replace (2 + length ip + length hdr)%nat with (6 + length ip)%nat
      by (cbn [length hdr]; lia). exact Hr. }
  assert (R2' : room (length ip) (set_wr (wr c ++ hdr) cap1 c)).
  { destruct R2 as [Hc Hk]. split; [exact Hc|].
    destruct (wcap (set_wr (wr c ++ hdr) cap1 c)); [lia | exact I]. }
  destruct (Write_room ip _ R2') as (cap2 & W2 & K2). rewrite W2.
  assert (R3 : room (length pb) (set_wr (wr (set_wr (wr c ++ hdr) cap1 c) ++ ip) cap2
                                        (set_wr (wr c ++ hdr) cap1 c))).
  { apply K2. exact R2. }
  destruct (Write_room pb _ R3) as (cap3 & W3 & _). rewrite W3.
  cbn [fst snd wr set_wr]. split; [reflexivity|].
  rewrite <- !app_assoc. reflexivity.
Qed.

Lemma WriteRequestSuccessMessage_frame_witness :
  wr (snd (WriteRequestSuccessMessage (repeat x00 15 ++ [x01]) 443 (conn_of []))) =
  [x05; x00; x00; x04] ++ (repeat x00 15 ++ [x01]) ++ [x01; xbb].
Proof.
  refine (proj2 (proj1 (WriteRequestSuccessMessage_frame (repeat x00 15 ++ [x01]) 443
                          (conn_of []) (or_intror eq_refl) _ (conj eq_refl I)))).
  lia.
Defined.

(** ** The request stage *)

Section Request.

Variable IP_String : list byte -> string.
Variable DialTimeout : string -> Z -> Target + error.
Variable sched : list thread.
Variable s : Config.

Local Abbreviation request_w := (request IP_String DialTimeout sched s).

(** The parser changes nothing of the connection but the bytes left to
    read. *)
Lemma parsed_request_conn (c c' : Conn) (m : ClientRequestMessage) :
  NewClientRequestMessage IP_String c = (Ok m, c') ->
  wr c' = wr c /\ wcap c' = wcap c /\ closed c' = closed c.
Proof.
  intros H. apply NewClientRequestMessage_inv in H.
  destruct H as (_ & _ & _ & _ & _ & _ & _ & ->). auto.
Qed.

Lemma request_rejected (w : World) (c' : Conn) (m : ClientRequestMessage)
    (replyType : ReplyType) (e : error) :
  NewClientRequestMessage IP_String (client w) = (Ok m, c') ->
  request_w w =
    (discard (on_client (WriteRequestFailureMessage replyType)) ;; throw e)
      (mkWorld c' (target w) (dialed w)) ->
  fst (request_w w) = Err e /\
  client (snd (request_w w)) = snd (WriteRequestFailureMessage replyType c') /\
  target (snd (request_w w)) = target w /\
  dialed (snd (request_w w)) = dialed w /\
  (room 10 (client w) ->
   wr (client (snd (request_w w))) =
   wr (client w) ++ [SOCKS5Version; replyType; ReservedField; TypeIPv4;
                     x00; x00; x00; x00; x00; x00]).
Proof.
  intros Hm ->. unfold bind. rewrite discard_failure_reply.
  cbn [throw fst snd client target dialed]. repeat split.
  intros Hr. destruct (parsed_request_conn _ _ _ Hm) as (Hw & Hk & Hc).
  rewrite WriteRequestFailureMessage_room.
  - rewrite Hw. reflexivity.
  - unfold room. rewrite Hk, Hc. exact Hr.
Qed.

(** A UDP-associate request for an address that is not IPv6: [handleUDP]
    returns nil, nothing is written and nothing dialed. *)
Lemma request_udp_no_reply (w : World) (c' : Conn) (m : ClientRequestMessage) :
  NewClientRequestMessage IP_String (client w) = (Ok m, c') ->
  AddrType m <> TypeIPv6 ->
  Cmd m = CmdUDP ->
  request_w w = (Ok tt, mkWorld c' (target w) (dialed w)).
Proof.
  intros Hm Hat Hcmd. unfold request, bind, on_client.
  rewrite Hm, Hcmd, (byte_eqb_neq _ _ Hat). reflexivity.
Qed.

End Request.

(** C10. A parsed request whose address type is IPv6 is refused whatever its
    command, CONNECT included: [request] fails with
    [ErrAddressTypeNotSupported], what it wrote is the failure reply with
    status 08 (if the writer took its ten bytes, the output grew by exactly
    them), and no address was dialed nor any target connection opened. *)
Theorem request_ipv6_refused
    (IP_String : list byte -> string) (DialTimeout : string -> Z -> Target + error)
    (sched : list thread) (s : Config)
    (w : World) (c' : Conn) (m : ClientRequestMessage) :
  NewClientRequestMessage IP_String (client w) = (Ok m, c') ->
  AddrType m = TypeIPv6 ->
  fst (request IP_String DialTimeout sched s w) = Err ErrAddressTypeNotSupported /\
  client (snd (request IP_String DialTimeout sched s w)) =
    snd (WriteRequestFailureMessage ReplyAddressTypeNotSupported c') /\
  target (snd (request IP_String DialTimeout sched s w)) = target w /\
  dialed (snd (request IP_String DialTimeout sched s w)) = dialed w /\
  (room 10 (client w) ->
   wr (client (snd (request IP_String DialTimeout sched s w))) =
   wr (client w) ++ [x05; x08; x00; x01; x00; x00; x00; x00; x00; x00]).
Proof.
  intros Hm Hat.
  apply (request_rejected IP_String DialTimeout sched s w c' m
           ReplyAddressTypeNotSupported ErrAddressTypeNotSupported Hm).
  unfold request. unfold bind at 1. unfold on_client at 1.
  rewrite Hm, Hat. reflexivity.
Qed.

Lemma request_ipv6_refused_witness :
  let w := accepted (conn_of ([x05; x01; x00; x04] ++ repeat x00 15 ++ [x01]
                              ++ [x00; x50])) in
  fst (request net_IP_String refusing [] noAuthConfig w) = Err ErrAddressTypeNotSupported /\
  wr (client (snd (request net_IP_String refusing [] noAuthConfig w))) =
    [x05; x08; x00; x01; x00; x00; x00; x00; x00; x00] /\
  dialed (snd (request net_IP_String refusing [] noAuthConfig w)) = [].
Proof.
  cbv zeta.
  pose proof (request_ipv6_refused net_IP_String refusing [] noAuthConfig
                (accepted (conn_of ([x05; x01; x00; x04] ++ repeat x00 15 ++ [x01]
                                    ++ [x00; x50])))
                (conn_of [])
                (mkClientRequestMessage CmdConnect TypeIPv6 "::1" 80)
                eq_refl eq_refl) as (He & _ & _ & Hd & Hw).
  split; [exact He | split; [exact (Hw (conj eq_refl I)) | exact Hd]].
Defined.

(** C1 as amended. A parsed request whose command is neither CONNECT nor
    UDP-associate (that is, a BIND) and whose address type is not IPv6 is
    refused: [request] fails with [ErrCommandNotSupported], what it wrote is
    the failure reply with status 07 (if the writer took its ten bytes, the
    output grew by exactly them), and no address was dialed nor any target
    connection opened, so nothing is relayed. *)
Theorem request_command_refused
    (IP_String : list byte -> string) (DialTimeout : string -> Z -> Target + error)
    (sched : list thread) (s : Config)
    (w : World) (c' : Conn) (m : ClientRequestMessage) :
  NewClientRequestMessage IP_String (client w) = (Ok m, c') ->
  AddrType m <> TypeIPv6 ->
  Cmd m <> CmdConnect ->
  Cmd m <> CmdUDP ->
  fst (request IP_String DialTimeout sched s w) = Err ErrCommandNotSupported /\
  client (snd (request IP_String DialTimeout sched s w)) =
    snd (WriteRequestFailureMessage ReplyCommandNotSupported c') /\
  target (snd (request IP_String DialTimeout sched s w)) = target w /\
  dialed (snd (request IP_String DialTimeout sched s w)) = dialed w /\
  (room 10 (client w) ->
   wr (client (snd (request IP_String DialTimeout sched s w))) =
   wr (client w) ++ [x05; x07; x00; x01; x00; x00; x00; x00; x00; x00]).
Proof.
  intros Hm Hat Hc Hu.
  apply (request_rejected IP_String DialTimeout sched s w c' m
           ReplyCommandNotSupported ErrCommandNotSupported Hm).
  unfold request. unfold bind at 1. unfold on_client at 1.
  rewrite Hm, (byte_eqb_neq _ _ Hat), (byte_eqb_neq _ _ Hc), (byte_eqb_neq _ _ Hu).
  reflexivity.
Qed.

Lemma request_command_refused_witness :
  let w := accepted (conn_of [x05; x02; x00; x01; x0a; x00; x00; x01; x00; x50]) in
  fst (request net_IP_String refusing [] noAuthConfig w) = Err ErrCommandNotSupported /\
  wr (client (snd (request net_IP_String refusing [] noAuthConfig w))) =
    [x05; x07; x00; x01; x00; x00; x00; x00; x00; x00] /\
  dialed (snd (request net_IP_String refusing [] noAuthConfig w)) = [].
Proof.
  cbv zeta.
  assert (N1 : TypeIPv4 <> TypeIPv6) by discriminate.
  assert (N2 : CmdBind <> CmdConnect) by discriminate.
  assert (N3 : CmdBind <> CmdUDP) by discriminate.
  pose proof (request_command_refused net_IP_String refusing [] noAuthConfig
                (accepted (conn_of [x05; x02; x00; x01; x0a; x00; x00; x01; x00; x50]))
                (conn_of [])
                (mkClientRequestMessage CmdBind TypeIPv4 "10.0.0.1" 80)
                eq_refl N1 N2 N3) as (He & _ & _ & Hd & Hw).
  split; [exact He | split; [exact (Hw (conj eq_refl I)) | exact Hd]].
Defined.

(** C1 as it was stated fails on two requests that are parsed and are not
    CONNECT.  A BIND request for an IPv6 address is answered with status 08
    (address type not supported) and [ErrAddressTypeNotSupported], since the
    address type is looked at first.  A UDP-associate request for an IPv4
    address is not answered at all and [request] returns nil. *)
Lemma request_not_connect_other_outcomes :
  let bind6 := accepted (conn_of ([x05; x02; x00; x04] ++ repeat x00 15 ++ [x01]
                                  ++ [x00; x50])) in
  let udp4 := accepted (conn_of [x05; x03; x00; x01; x0a; x00; x00; x01; x00; x50]) in
  (NewClientRequestMessage net_IP_String (client bind6) =
     (Ok (mkClientRequestMessage CmdBind TypeIPv6 "::1" 80), conn_of []) /\
   request net_IP_String refusing [] noAuthConfig bind6 =
     (Err ErrAddressTypeNotSupported,
      accepted (mkConn [] EOF [x05; x08; x00; x01; x00; x00; x00; x00; x00; x00]
                       None (ErrOther "write") false)) /\
   fst (request net_IP_String refusing [] noAuthConfig bind6)
     <> Err ErrCommandNotSupported) /\
  (NewClientRequestMessage net_IP_String (client udp4) =
     (Ok (mkClientRequestMessage CmdUDP TypeIPv4 "10.0.0.1" 80), conn_of []) /\
   request net_IP_String refusing [] noAuthConfig udp4 = (Ok tt, accepted (conn_of [])) /\
   fst (request net_IP_String refusing [] noAuthConfig udp4)
     <> Err ErrCommandNotSupported).
Proof.
  cbv zeta. repeat split; try reflexivity; discriminate.
Qed.

(** ** The relay *)

Lemma copyBuffer_pos : (0 < copyBuffer)%nat.
Proof.
  unfold copyBuffer. change O with (Z.to_nat 0).
  apply Z2Nat.inj_lt; lia.
Qed.

Lemma copy_turn_main_view (c1 t1 c2 t2 : Conn) :
  main_view c1 t1 = main_view c2 t2 ->
  fst (fst (copy_turn c1 t1)) = fst (fst (copy_turn c2 t2)) /\
  main_view (snd (fst (copy_turn c1 t1))) (snd (copy_turn c1 t1)) =
  main_view (snd (fst (copy_turn c2 t2))) (snd (copy_turn c2 t2)).
Proof.
  destruct c1 as [rd1 re1 wr1 k1 we1 cl1], t1 as [trd1 tre1 twr1 tk1 twe1 tcl1],
           c2 as [rd2 re2 wr2 k2 we2 cl2], t2 as [trd2 tre2 twr2 tk2 twe2 tcl2].
  unfold main_view. cbn [rd rend wr wcap werr closed]. intros H.
  injection H as -> -> -> -> -> -> ->.
  unfold copy_turn, Write. generalize copyBuffer. intros n.
  cbn [rd rend wr wcap werr closed set_rd set_wr].
  destruct tcl2; [split; reflexivity|].
  destruct trd2 as [|b l]; [split; reflexivity|].
  destruct cl2; [split; reflexivity|].
  destruct k2 as [k|]; [|split; reflexivity].
  destruct (length (firstn n (b :: l)) <=? k)%nat; split; reflexivity.
Qed.

(** A turn of the spawned copy leaves alone what the main copy works on. *)
Lemma spawned_turn_main_view (c t : Conn) :
  main_view (snd (copy_turn t c)) (snd (fst (copy_turn t c))) = main_view c t.
Proof.
  destruct c as [rd1 re1 wr1 k1 we1 cl1], t as [trd1 tre1 twr1 tk1 twe1 tcl1].
  unfold main_view, copy_turn, Write. generalize copyBuffer. intros n.
  cbn [rd rend wr wcap werr closed set_rd set_wr].
  destruct cl1; [reflexivity|].
  destruct rd1 as [|b l]; [reflexivity|].
  destruct tcl1; [reflexivity|].
  destruct tk1 as [k|]; [|reflexivity].
  destruct (length (firstn n (b :: l)) <=? k)%nat; reflexivity.
Qed.

(** Whatever the interleaving, the main copy of the relay returns what
    [io.Copy] returns after as many turns on its own. *)
Lemma relay_io_Copy (sched : list thread) :
  forall (spawned : bool) (c t c0 t0 : Conn),
    main_view c t = main_view c0 t0 ->
    fst (fst (relay sched spawned c t)) = fst (fst (io_Copy (main_turns sched) c0 t0)).
Proof.
  induction sched as [|th sched IH]; intros spawned c t c0 t0 Hv.
  - reflexivity.
  - destruct th; cbn [relay main_turns io_Copy].
    + destruct (copy_turn_main_view c t c0 t0 Hv) as (Hr & Hv').
      destruct (copy_turn c t) as [[r c'] t'].
      destruct (copy_turn c0 t0) as [[r0 c0'] t0'].
      cbn [fst snd] in Hr, Hv'. subst r0.
      destruct r as [r|]; [reflexivity|]. apply IH. exact Hv'.
    + destruct spawned; [|apply IH; exact Hv].
      pose proof (spawned_turn_main_view c t) as Hs.
      destruct (copy_turn t c) as [[r t'] c']. cbn [fst snd] in Hs.
      destruct r; apply IH; rewrite Hs; exact Hv.
Qed.

(** A copy that goes on after a turn has taken bytes from its source. *)
Lemma copy_turn_goes_on (dst src dst' src' : Conn) :
  copy_turn dst src = (None, dst', src') ->
  (length (rd src') < length (rd src))%nat.
Proof.
  unfold copy_turn. generalize copyBuffer_pos. generalize copyBuffer. intros n Hn.
  destruct (closed src); [discriminate|].
  destruct (rd src) as [|b l]; [discriminate|].
  destruct (Write (firstn n (b :: l)) dst) as [[[]| | |] d]; intros E;
    try discriminate.
  injection E as _ <-. cbn [rd set_rd]. rewrite length_skipn. cbn [length]. lia.
Qed.

Lemma io_Copy_returns (fuel : nat) :
  forall dst src : Conn,
    (length (rd src) < fuel)%nat ->
    exists r, fst (fst (io_Copy fuel dst src)) = Some r.
Proof.
  induction fuel as [|fuel IH]; intros dst src Hl; [lia|].
  cbn [io_Copy].
  destruct (copy_turn dst src) as [[r dst'] src'] eqn:E.
  destruct r as [r|]; [exists r; reflexivity|].
  apply IH. apply copy_turn_goes_on in E. lia.
Qed.

Lemma io_Copy_more_fuel (fuel : nat) :
  forall (fuel' : nat) (dst src : Conn) (r : option error),
    fst (fst (io_Copy fuel dst src)) = Some r ->
    (fuel <= fuel')%nat ->
    fst (fst (io_Copy fuel' dst src)) = Some r.
Proof.
  induction fuel as [|fuel IH]; intros fuel' dst src r H Hle; [discriminate|].
  destruct fuel' as [|fuel']; [lia|].
  cbn [io_Copy] in *.
  destruct (copy_turn dst src) as [[[r0|] dst'] src']; [exact H|].
  apply (IH fuel' dst' src' r H). lia.
Qed.

(** The copy returns nil when the stream of the source ends in EOF and the
    writer of the destination takes all its bytes. *)
Lemma copy_turn_EOF (dst src : Conn) :
  closed src = false ->
  rend src = EOF ->
  room (length (rd src)) dst ->
  fst (fst (copy_turn dst src)) = Some None \/
  (fst (fst (copy_turn dst src)) = None /\
   closed (snd (copy_turn dst src)) = false /\
   rend (snd (copy_turn dst src)) = EOF /\
   room (length (rd (snd (copy_turn dst src)))) (snd (fst (copy_turn dst src)))).
Proof.
  intros Hc He Hr. unfold copy_turn. generalize copyBuffer. intros n.
  rewrite Hc. destruct (rd src) as [|b l] eqn:Es.
  - left. rewrite He. reflexivity.
  - right.
    assert (Hlen : (length (firstn n (b :: l)) + length (skipn n (b :: l))
                    = length (b :: l))%nat).
    { rewrite <- length_app, firstn_skipn. reflexivity. }
    assert (Hr1 : room (length (firstn n (b :: l))) dst).
    { destruct Hr as [Hcd Hk]. split; [exact Hcd|].
      destruct (wcap dst); [lia | exact I]. }
    destruct (Write_room _ dst Hr1) as (cap & Hw & Hk). rewrite Hw.
    cbn [fst snd rd set_rd closed rend].
    split; [reflexivity|]. split; [exact Hc|]. split; [exact He|].
    apply Hk. rewrite Nat.add_comm, Hlen. exact Hr.
Qed.

(** The copy returns nil when the stream of the source ends in EOF and the
    writer of the destination takes all its bytes. *)
Lemma io_Copy_EOF (fuel : nat) :
  forall dst src : Conn,
    (length (rd src) < fuel)%nat ->
    closed src = false ->
    rend src = EOF ->
    room (length (rd src)) dst ->
    fst (fst (io_Copy fuel dst src)) = Some None.
Proof.
  induction fuel as [|fuel IH]; intros dst src Hl Hc He Hr; [lia|].
  cbn [io_Copy].
  destruct (copy_turn_EOF dst src Hc He Hr) as [H|(H & Hc' & He' & Hr')];
    destruct (copy_turn dst src) as [[r dst'] src'] eqn:E; cbn [fst snd] in *;
    subst r; [reflexivity|].
  apply IH; try assumption.
  apply copy_turn_goes_on in E. lia.
Qed.

(** [forward] never returns without having closed the target. *)
Lemma forward_closes_target (sched : list thread) (conn targetConn : Conn) :
  fst (forward sched (conn, targetConn)) <> Pending ->
  closed (snd (snd (forward sched (conn, targetConn)))) = true.
Proof.
  unfold forward.
  destruct (relay sched true conn targetConn) as [[[r|] c'] t']; cbn [fst snd].
  - reflexivity.
  - congruence.
Qed.

Lemma forward_relay (sched : list thread) (conn targetConn : Conn) :
  fst (forward sched (conn, targetConn)) =
  returned (fst (fst (relay sched true conn targetConn))).
Proof.
  unfold forward.
  destruct (relay sched true conn targetConn) as [[[[e|]|] c'] t']; reflexivity.
Qed.

(** C9. When the schedule gives the main goroutine enough turns (one more
    than the bytes the target still sends), [forward] returns, whatever the
    interleaving with the spawned copy; it returns what the copy from the
    target to the client returns on its own, that is, nil when the copy met
    the end of the stream and the error of the copy otherwise; and the
    target connection is closed when it returns.  In particular a target
    stream that ends in EOF, copied to a client that takes all its bytes,
    makes [forward] return nil. *)
Theorem forward_returns_copy_error (sched : list thread) (conn targetConn : Conn) :
  (length (rd targetConn) < main_turns sched)%nat ->
  fst (forward sched (conn, targetConn)) = returned (io_Copy_result conn targetConn) /\
  fst (forward sched (conn, targetConn)) <> Pending /\
  closed (snd (snd (forward sched (conn, targetConn)))) = true /\
  (closed targetConn = false -> rend targetConn = EOF ->
   room (length (rd targetConn)) conn ->
   fst (forward sched (conn, targetConn)) = Ok tt) /\
  (closed targetConn = false -> rd targetConn = [] -> rend targetConn <> EOF ->
   fst (forward sched (conn, targetConn)) = Err (rend targetConn)).
Proof.
  intros Hturns.
  destruct (io_Copy_returns (S (length (rd targetConn))) conn targetConn
              (Nat.lt_succ_diag_r _)) as (r & Hr).
  assert (Hres : fst (forward sched (conn, targetConn)) =
                 returned (io_Copy_result conn targetConn)).
  { rewrite forward_relay.
    rewrite (relay_io_Copy sched true conn targetConn conn targetConn eq_refl).
    unfold io_Copy_result. rewrite Hr.
    rewrite (io_Copy_more_fuel _ (main_turns sched) conn targetConn r Hr Hturns).
    reflexivity. }
  assert (Hret : fst (forward sched (conn, targetConn)) <> Pending).
  { rewrite Hres. unfold io_Copy_result. rewrite Hr. destruct r; discriminate. }
  split; [exact Hres|]. split; [exact Hret|].
  split; [apply forward_closes_target; exact Hret|].
  split.
  - intros Hc He Hroom. rewrite Hres. unfold io_Copy_result.
    rewrite (io_Copy_EOF _ conn targetConn (Nat.lt_succ_diag_r _) Hc He Hroom).
    reflexivity.
  - intros Hc Hrd He. rewrite Hres. unfold io_Copy_result.
    rewrite Hrd. cbn [length io_Copy]. unfold copy_turn. rewrite Hc, Hrd.
    destruct (rend targetConn); try reflexivity. contradiction.
Qed.

Lemma forward_returns_copy_error_witness :
  forward [Spawned; Main; Spawned; Main; Main]
    (conn_of (bytes "GET /"), conn_of (bytes "OK")) =
  (Ok tt,
   (mkConn [] EOF (bytes "OK") None (ErrOther "write") false,
    mkConn [] EOF (bytes "GET /") None (ErrOther "write") true)) /\
  fst (forward [Spawned; Main; Spawned; Main; Main]
         (conn_of (bytes "GET /"), conn_of (bytes "OK"))) = Ok tt.
Proof.
  split; [vm_compute; reflexivity|].
  refine (proj1 (proj2 (proj2 (proj2
            (forward_returns_copy_error [Spawned; Main; Spawned; Main; Main]
               (conn_of (bytes "GET /")) (conn_of (bytes "OK")) _))))
            eq_refl eq_refl (conj eq_refl I)).
  cbn. lia.
Defined.

(** * Further properties of the parsers *)

(** ** A small logic for computations that only read *)

Lemma reads_only_refl (c : Conn) : reads_only c c.
Proof.
  split; [exists []; reflexivity | symmetry; apply set_rd_same].
Qed.

Lemma reads_only_trans (c c1 c2 : Conn) :
  reads_only c c1 -> reads_only c1 c2 -> reads_only c c2.
Proof.
  intros [[p1 H1] E1] [[p2 H2] E2]. split.
  - exists (p1 ++ p2). rewrite H1, H2, app_assoc. reflexivity.
  - rewrite E2, E1. reflexivity.
Qed.

Lemma reads_only_fields (c c' : Conn) :
  reads_only c c' ->
  wr c' = wr c /\ wcap c' = wcap c /\ closed c' = closed c /\ rend c' = rend c.
Proof.
  intros [_ ->]. auto.
Qed.

Lemma reader_ret {A} (a : A) (Q : A -> Prop) : Q a -> reader (ret a) Q.
Proof.
  intros H c. split; [apply reads_only_refl | exact H].
Qed.

Lemma reader_throw {A} (e : error) (Q : A -> Prop) : reader (throw e) Q.
Proof.
  intros c. split; [apply reads_only_refl | exact I].
Qed.

Lemma reader_bind {A B} (m : M Conn A) (k : A -> M Conn B)
    (P : A -> Prop) (Q : B -> Prop) :
  reader m P ->
  (forall a, P a -> reader (k a) Q) ->
  reader (bind m k) Q.
Proof.
  intros Hm Hk c. unfold bind. specialize (Hm c).
  destruct (m c) as [[a|e|w|] c1]; cbn [fst snd] in *; destruct Hm as [Hr Hp];
    try contradiction.
  - destruct (Hk a Hp c1) as [Hr' Hq]. split; [|exact Hq].
    eapply reads_only_trans; eassumption.
  - split; [exact Hr | exact I].
Qed.

Lemma reader_weaken {A} (m : M Conn A) (P Q : A -> Prop) :
  reader m P -> (forall a, P a -> Q a) -> reader m Q.
Proof.
  intros Hm HPQ c. destruct (Hm c) as [Hr Hp]. split; [exact Hr|].
  destruct (fst (m c)); auto.
Qed.

Lemma reader_checked {A} (o : option A) (why : string) (Q : A -> Prop) :
  (exists a, o = Some a /\ Q a) -> reader (checked o why) Q.
Proof.
  intros (a & -> & Ha). apply reader_ret. exact Ha.
Qed.

Lemma reader_ReadFull (buf : list byte) :
  reader (ReadFull buf) (fun data => length data = length buf).
Proof.
  intros c. destruct (ReadFull buf c) as [[data|e|w|] c1] eqn:E; cbn [fst snd].
  - apply ReadFull_inv in E. destruct E as (Hl & Hrd & Hc).
    split; [|exact Hl]. split; [eauto | exact Hc].
  - split; [|exact I]. unfold ReadFull in E.
    destruct (length buf); [discriminate|].
    destruct (closed c).
    + injection E as _ <-. apply reads_only_refl.
    + destruct (_ <=? _)%nat; [discriminate|]. injection E as _ <-.
      split; [exists (rd c); cbn [rd set_rd]; rewrite app_nil_r; reflexivity
             | reflexivity].
  - unfold ReadFull in E. destruct (length buf); [discriminate|].
    destruct (closed c); [discriminate|]. destruct (_ <=? _)%nat; discriminate.
  - unfold ReadFull in E. destruct (length buf); [discriminate|].
    destruct (closed c); [discriminate|]. destruct (_ <=? _)%nat; discriminate.
Qed.

Lemma reader_ReadFullTo (buf : list byte) (hi : Z) :
  0 <= hi <= len buf ->
  reader (ReadFullTo buf hi)
         (fun out => len out = len buf /\
                     exists data, len data = hi /\ out = data ++ skipn (Z.to_nat hi) buf).
Proof.
  intros Hhi. unfold ReadFullTo.
  eapply reader_bind with (P := fun dst => len dst = hi).
  - apply reader_checked. exists (firstn (Z.to_nat hi) buf). split.
    + unfold slice_to.
      replace (0 <=? hi) with true by (symmetry; apply Z.leb_le; lia).
      replace (hi <=? len buf) with true by (symmetry; apply Z.leb_le; lia).
      reflexivity.
    + unfold len in *. rewrite length_firstn. lia.
  - intros dst Hdst. eapply reader_bind; [apply reader_ReadFull|].
    cbv beta. intros data Hdata. apply reader_ret.
    assert (Hd : len data = hi) by (unfold len in *; lia).
    split.
    + rewrite len_app. unfold len in *. rewrite length_skipn. lia.
    + exists data. split; [exact Hd|]. f_equal. f_equal. unfold len in Hdst. lia.
Qed.

Lemma index_in_range (buf : list byte) (i : Z) :
  0 <= i < len buf -> exists b, index buf i = Some b.
Proof.
  intros Hi. unfold index.
  replace (0 <=? i) with true by (symmetry; apply Z.leb_le; lia).
  replace (i <? len buf) with true by (symmetry; apply Z.ltb_lt; lia).
  cbn [andb]. destruct (nth_error buf (Z.to_nat i)) as [b|] eqn:E; [eauto|].
  apply nth_error_None in E. unfold len in Hi. lia.
Qed.

Lemma slice_to_in_range (buf : list byte) (hi : Z) :
  0 <= hi <= len buf -> slice_to buf hi = Some (firstn (Z.to_nat hi) buf).
Proof.
  intros Hhi. unfold slice_to.
  replace (0 <=? hi) with true by (symmetry; apply Z.leb_le; lia).
  replace (hi <=? len buf) with true by (symmetry; apply Z.leb_le; lia).
  reflexivity.
Qed.

(** ** The parsers of the greeting and of the request never panic *)

Lemma reader_NewClientAuthMessage :
  reader NewClientAuthMessage
         (fun m => Version m = SOCKS5Version /\
                   len (Methods m) = Z_of_byte (NMethods m)).
Proof.
  unfold NewClientAuthMessage.
  eapply reader_bind; [apply reader_ReadFull|]. cbv beta.
  intros buf Hl. rewrite length_make in Hl. change (Z.to_nat 2) with 2%nat in Hl.
  destruct buf as [|v [|n [|? ?]]]; try discriminate.
  destruct (negb (Byte.eqb v SOCKS5Version)); [apply reader_throw|].
  eapply reader_bind; [apply reader_ReadFull|]. cbv beta.
  intros methods Hm. apply reader_ret. cbn [Version Methods NMethods].
  split; [reflexivity|]. unfold len. rewrite Hm, length_make.
  pose proof (Z_of_byte_range n). lia.
Qed.

Lemma reader_NewClientRequestMessage (IP_String : list byte -> string) :
  reader (NewClientRequestMessage IP_String)
         (fun m => (Cmd m = CmdConnect \/ Cmd m = CmdBind \/ Cmd m = CmdUDP) /\
                   (AddrType m = TypeIPv4 \/ AddrType m = TypeIPv6 \/
                    AddrType m = TypeDomain) /\
                   0 <= Port m < 65536).
Proof.
  unfold NewClientRequestMessage.
  eapply reader_bind; [apply reader_ReadFull|]. cbv beta.
  intros buf Hl. rewrite length_make in Hl. change (Z.to_nat 4) with 4%nat in Hl.
  destruct buf as [|v [|cmd [|rsv [|atyp [|? ?]]]]]; try discriminate.
  destruct (negb (Byte.eqb v SOCKS5Version)); [apply reader_throw|].
  destruct (negb (Byte.eqb cmd CmdConnect) && negb (Byte.eqb cmd CmdBind)
            && negb (Byte.eqb cmd CmdUDP)) eqn:Ecmd; [apply reader_throw|].
  destruct (negb (Byte.eqb rsv ReservedField)); [apply reader_throw|].
  destruct (negb (Byte.eqb atyp TypeIPv4) && negb (Byte.eqb atyp TypeIPv6)
            && negb (Byte.eqb atyp TypeDomain)) eqn:Eat; [apply reader_throw|].
  assert (Hcmd : cmd = CmdConnect \/ cmd = CmdBind \/ cmd = CmdUDP).
  { destruct (Byte.eqb cmd CmdConnect) eqn:A; [apply Byte.byte_dec_bl in A; auto|].
    destruct (Byte.eqb cmd CmdBind) eqn:B; [apply Byte.byte_dec_bl in B; auto|].
    destruct (Byte.eqb cmd CmdUDP) eqn:C; [apply Byte.byte_dec_bl in C; auto|].
    discriminate. }
  assert (Hat : atyp = TypeIPv4 \/ atyp = TypeIPv6 \/ atyp = TypeDomain).
  { destruct (Byte.eqb atyp TypeIPv4) eqn:A; [apply Byte.byte_dec_bl in A; auto|].
    destruct (Byte.eqb atyp TypeIPv6) eqn:B; [apply Byte.byte_dec_bl in B; auto|].
    destruct (Byte.eqb atyp TypeDomain) eqn:C; [apply Byte.byte_dec_bl in C; auto|].
    discriminate. }
  clear Ecmd Eat.
  eapply reader_bind with (P := fun r => 2 <= len (fst r)).
  - destruct (Byte.eqb atyp TypeIPv6).
    { eapply reader_bind; [apply reader_ReadFull|]. cbv beta.
      intros out Ho. apply reader_ret. cbn [fst]. unfold len. rewrite Ho, length_make.
      unfold IPv6Length. lia. }
    destruct (Byte.eqb atyp TypeIPv4).
    { eapply reader_bind; [apply reader_ReadFull|]. cbv beta.
      intros out Ho. apply reader_ret. cbn [fst]. unfold len. rewrite Ho.
      cbn [length]. lia. }
    destruct (Byte.eqb atyp TypeDomain); [|apply reader_ret; cbn; lia].
    eapply reader_bind; [apply reader_ReadFullTo; unfold len; cbn [length]; lia|].
    cbv beta. intros out [Ho _].
    assert (Ho4 : len out = 4) by (rewrite Ho; reflexivity).
    destruct (index_in_range out 0 ltac:(lia)) as (dl & Hdl).
    eapply reader_bind with (P := fun _ => True);
      [apply reader_checked; exists dl; split; [exact Hdl|exact I]|].
    cbv beta. intros domainLength _.
    set (buf := if Z_of_byte domainLength >? IPv4Length
                then make (Z_of_byte domainLength) else out).
    pose proof (Z_of_byte_range domainLength) as Hr.
    assert (Hbuf : Z_of_byte domainLength <= len buf /\ 4 <= len buf).
    { subst buf. unfold IPv4Length.
      pose proof (Zgt_cases (Z_of_byte domainLength) 4) as G.
      destruct (Z_of_byte domainLength >? 4).
      - unfold len. rewrite length_make. lia.
      - lia. }
    eapply reader_bind; [apply reader_ReadFullTo; lia|].
    cbv beta. intros out2 [Ho2 _].
    eapply reader_bind with (P := fun _ => True).
    + apply reader_checked. eexists. split; [apply slice_to_in_range; lia|exact I].
    + cbv beta. intros domain _. apply reader_ret. cbn [fst]. lia.
  - intros [buf ip] Hb. cbn [fst] in Hb.
    eapply reader_bind; [apply reader_ReadFullTo; unfold PortLength; lia|].
    cbv beta. intros out [Ho _].
    destruct (index_in_range out 0 ltac:(lia)) as (b0 & H0).
    destruct (index_in_range out 1 ltac:(lia)) as (b1 & H1).
    rewrite H0, H1. cbn [checked].
    eapply reader_bind with (P := fun b => b = b0); [apply reader_ret; reflexivity|].
    intros ? ->.
    eapply reader_bind with (P := fun b => b = b1); [apply reader_ret; reflexivity|].
    intros ? ->.
    apply reader_ret. cbn [Cmd AddrType Port].
    split; [exact Hcmd|]. split; [exact Hat|].
    rewrite port_of_bytes_big_endian.
    pose proof (Z_of_byte_range b0). pose proof (Z_of_byte_range b1). lia.
Qed.

(** X1. Whatever the client sends, however short, the parser of the greeting
    returns a message or an error: it never panics.  It consumes a prefix of
    the incoming bytes and changes nothing else of the connection (nothing is
    written), and a message it returns has version 5 and as many methods as
    its count byte says. *)
Theorem NewClientAuthMessage_safe (c : Conn) :
  reads_only c (snd (NewClientAuthMessage c)) /\
  wr (snd (NewClientAuthMessage c)) = wr c /\
  (forall why, fst (NewClientAuthMessage c) <> Panic why) /\
  fst (NewClientAuthMessage c) <> Pending /\
  (forall m, fst (NewClientAuthMessage c) = Ok m ->
             Version m = SOCKS5Version /\ len (Methods m) = Z_of_byte (NMethods m)).
Proof.
  destruct (reader_NewClientAuthMessage c) as [Hr Hq].
  split; [exact Hr|]. split; [apply (reads_only_fields _ _ Hr)|].
  destruct (fst (NewClientAuthMessage c)) as [m|e|w|]; try contradiction.
  - split; [discriminate|]. split; [discriminate|].
    intros m' E. injection E as <-. exact Hq.
  - split; [discriminate|]. split; [discriminate|]. discriminate.
Qed.

(** X2. Whatever the client sends, the parser of the request returns a
    message or an error: no read into the buffer it reuses, and no index
    into it, is ever out of bounds, whatever the length of the domain name.
    It consumes a prefix of the incoming bytes and changes nothing else of
    the connection, and a message it returns has one of the three commands,
    one of the three address types and a port below 65536. *)
Theorem NewClientRequestMessage_safe (IP_String : list byte -> string) (c : Conn) :
  reads_only c (snd (NewClientRequestMessage IP_String c)) /\
  wr (snd (NewClientRequestMessage IP_String c)) = wr c /\
  (forall why, fst (NewClientRequestMessage IP_String c) <> Panic why) /\
  fst (NewClientRequestMessage IP_String c) <> Pending /\
  (forall m, fst (NewClientRequestMessage IP_String c) = Ok m ->
             (Cmd m = CmdConnect \/ Cmd m = CmdBind \/ Cmd m = CmdUDP) /\
             (AddrType m = TypeIPv4 \/ AddrType m = TypeIPv6 \/
              AddrType m = TypeDomain) /\
             0 <= Port m < 65536).
Proof.
  destruct (reader_NewClientRequestMessage IP_String c) as [Hr Hq].
  split; [exact Hr|]. split; [apply (reads_only_fields _ _ Hr)|].
  destruct (fst (NewClientRequestMessage IP_String c)) as [m|e|w|]; try contradiction.
  - split; [discriminate|]. split; [discriminate|].
    intros m' E. injection E as <-. exact Hq.
  - split; [discriminate|]. split; [discriminate|]. discriminate.
Qed.

(** ** What the parsers accept, and how they fail *)

(** X3. The parser of the greeting accepts exactly the frames
    VER NMETHODS METHODS with VER = 5 and NMETHODS method bytes: it returns
    the message [m] and leaves [rd c'] unread if and only if the incoming
    bytes are 05, the count, that many methods, and then [rd c']. *)
Theorem NewClientAuthMessage_exactly (c c' : Conn) (m : ClientAuthMessage) :
  closed c = false ->
  (NewClientAuthMessage c = (Ok m, c') <->
   Version m = SOCKS5Version /\
   len (Methods m) = Z_of_byte (NMethods m) /\
   rd c = SOCKS5Version :: NMethods m :: Methods m ++ rd c' /\
   c' = set_rd (rd c') c).
Proof.
  intros Hc. split.
  - intros H. pose proof (reader_NewClientAuthMessage c) as [_ Hq].
    rewrite H in Hq. cbn [fst] in Hq. destruct Hq as [Hv _].
    apply NewClientAuthMessage_inv in H. destruct H as (Hrd & Hl & Hc').
    auto.
  - intros (Hv & Hl & Hrd & Hc'). destruct m as [v n methods].
    cbn [Version NMethods Methods] in *. subst v.
    assert (Hn : byte_of_Z (len methods) = n)
      by (rewrite Hl; apply byte_of_Z_of_byte).
    pose proof (Z_of_byte_range n).
    rewrite <- Hn in Hrd.
    rewrite (NewClientAuthMessage_greeting c methods (rd c') Hc) by
      (try exact Hrd; unfold len in *; lia).
    rewrite Hn, <- Hc'. reflexivity.
Qed.

Lemma NewClientAuthMessage_exactly_witness :
  NewClientAuthMessage (conn_of [x05; x02; x00; x02; x09]) =
  (Ok (mkClientAuthMessage x05 x02 [x00; x02]), conn_of [x09]).
Proof.
  apply (proj2 (NewClientAuthMessage_exactly (conn_of [x05; x02; x00; x02; x09])
                  (conn_of [x09]) (mkClientAuthMessage x05 x02 [x00; x02]) eq_refl)).
  repeat split.
Defined.

(** X4. The four header bytes of a request are checked in the order
    version, command, reserved byte, address type, and the first check that
    fails decides the error.  In every case the parser has consumed exactly
    the four header bytes: the address and the port stay unread. *)
Theorem NewClientRequestMessage_header_checks (IP_String : list byte -> string)
    (c : Conn) (v cmd rsv atyp : byte) (rest : list byte) :
  closed c = false ->
  rd c = v :: cmd :: rsv :: atyp :: rest ->
  (v <> SOCKS5Version ->
   NewClientRequestMessage IP_String c = (Err ErrVersionNotSupported, set_rd rest c)) /\
  (v = SOCKS5Version ->
   cmd <> CmdConnect /\ cmd <> CmdBind /\ cmd <> CmdUDP ->
   NewClientRequestMessage IP_String c = (Err ErrCommandNotSupported, set_rd rest c)) /\
  (v = SOCKS5Version ->
   cmd = CmdConnect \/ cmd = CmdBind \/ cmd = CmdUDP ->
   rsv <> ReservedField ->
   NewClientRequestMessage IP_String c = (Err ErrInvalidReservedField, set_rd rest c)) /\
  (v = SOCKS5Version ->
   cmd = CmdConnect \/ cmd = CmdBind \/ cmd = CmdUDP ->
   rsv = ReservedField ->
   atyp <> TypeIPv4 /\ atyp <> TypeIPv6 /\ atyp <> TypeDomain ->
   NewClientRequestMessage IP_String c = (Err ErrAddressTypeNotSupported, set_rd rest c)).
Proof.
  intros Hc Hrd.
  assert (Hread : ReadFull (make 4) c = (Ok [v; cmd; rsv; atyp], set_rd rest c))
    by exact (ReadFull_exact (make 4) [v; cmd; rsv; atyp] rest c Hc Hrd eq_refl).
  split; [|split; [|split]].
  - intros Hv. unfold NewClientRequestMessage. unfold bind at 1. rewrite Hread.
    rewrite (byte_eqb_neq _ _ Hv). reflexivity.
  - intros -> (H1 & H2 & H3).
    unfold NewClientRequestMessage. unfold bind at 1. rewrite Hread.
    rewrite (byte_eqb_neq _ _ H1), (byte_eqb_neq _ _ H2), (byte_eqb_neq _ _ H3).
    reflexivity.
  - intros -> Hcmd Hr.
    unfold NewClientRequestMessage. unfold bind at 1. rewrite Hread.
    replace (negb (Byte.eqb cmd CmdConnect) && negb (Byte.eqb cmd CmdBind)
             && negb (Byte.eqb cmd CmdUDP)) with false
      by (destruct Hcmd as [ -> | [ -> | -> ] ]; reflexivity).
    rewrite (byte_eqb_neq _ _ Hr). reflexivity.
  - intros -> Hcmd -> (H1 & H2 & H3).
    unfold NewClientRequestMessage. unfold bind at 1. rewrite Hread.
    replace (negb (Byte.eqb cmd CmdConnect) && negb (Byte.eqb cmd CmdBind)
             && negb (Byte.eqb cmd CmdUDP)) with false
      by (destruct Hcmd as [ -> | [ -> | -> ] ]; reflexivity).
    rewrite (byte_eqb_neq _ _ H1), (byte_eqb_neq _ _ H2), (byte_eqb_neq _ _ H3).
    reflexivity.
Qed.

Lemma NewClientRequestMessage_header_checks_witness :
  NewClientRequestMessage net_IP_String
    (conn_of [x05; x09; x07; x02; x01; x02; x03; x04; x00; x50]) =
  (Err ErrCommandNotSupported, conn_of [x01; x02; x03; x04; x00; x50]).
Proof.
  refine (proj1 (proj2 (NewClientRequestMessage_header_checks net_IP_String
                          (conn_of [x05; x09; x07; x02; x01; x02; x03; x04; x00; x50])
                          x05 x09 x07 x02 [x01; x02; x03; x04; x00; x50]
                          eq_refl eq_refl)) eq_refl _).
  repeat split; discriminate.
Defined.

(** X5. A request the parser refuses gets no reply at all: [request] returns
    the error of the parser, nothing has been written to the client (not
    even a failure frame, also for an unknown command or address type) and
    nothing has been dialed. *)
Theorem request_parse_error_no_reply
    (IP_String : list byte -> string) (DialTimeout : string -> Z -> Target + error)
    (sched : list thread) (s : Config) (w : World) (e : error) (c' : Conn) :
  NewClientRequestMessage IP_String (client w) = (Err e, c') ->
  request IP_String DialTimeout sched s w = (Err e, mkWorld c' (target w) (dialed w)) /\
  wr c' = wr (client w).
Proof.
  intros H. split.
  - unfold request. unfold bind at 1. unfold on_client at 1. rewrite H. reflexivity.
  - pose proof (reader_NewClientRequestMessage IP_String (client w)) as [Hr _].
    rewrite H in Hr. apply (reads_only_fields _ _ Hr).
Qed.

Lemma request_parse_error_no_reply_witness :
  request net_IP_String refusing [] noAuthConfig
    (accepted (conn_of [x05; x01; x00; x02; x01; x02; x03; x04; x00; x50])) =
  (Err ErrAddressTypeNotSupported,
   accepted (conn_of [x01; x02; x03; x04; x00; x50])).
Proof.
  exact (proj1 (request_parse_error_no_reply net_IP_String refusing [] noAuthConfig
                  (accepted (conn_of [x05; x01; x00; x02; x01; x02; x03; x04; x00; x50]))
                  ErrAddressTypeNotSupported
                  (conn_of [x01; x02; x03; x04; x00; x50]) eq_refl)).
Defined.

Lemma firstn_len_app (a b : list byte) (n : Z) :
  len a = n -> firstn (Z.to_nat n) (a ++ b) = a.
Proof.
  intros <-. unfold len. rewrite Nat2Z.id.
  rewrite firstn_app, Nat.sub_diag, firstn_all, firstn_O, app_nil_r. reflexivity.
Qed.

(** X6. A request that is parsed has been read exactly to its declared
    lengths: behind the four header bytes, 4 address bytes for IPv4, 16 for
    IPv6, one length byte and that many bytes for a domain name, then the two
    port bytes, and the parser stops there.  The address of the message is
    the text of exactly those address bytes ([net.IP.String] of them, or the
    bytes of the domain name themselves), also when the domain name is short
    enough to be read into the reused header buffer. *)
Theorem NewClientRequestMessage_consumes (IP_String : list byte -> string)
    (c c' : Conn) (m : ClientRequestMessage) :
  NewClientRequestMessage IP_String c = (Ok m, c') ->
  exists addr b0 b1,
    Port m = Z_of_byte b0 * 256 + Z_of_byte b1 /\
    ((AddrType m = TypeIPv4 /\ length addr = 4%nat /\ TargetIP m = IP_String addr /\
      rd c = [SOCKS5Version; Cmd m; ReservedField; TypeIPv4]
             ++ addr ++ [b0; b1] ++ rd c') \/
     (AddrType m = TypeIPv6 /\ length addr = 16%nat /\ TargetIP m = IP_String addr /\
      rd c = [SOCKS5Version; Cmd m; ReservedField; TypeIPv6]
             ++ addr ++ [b0; b1] ++ rd c') \/
     (AddrType m = TypeDomain /\ (length addr <= 255)%nat /\
      TargetIP m = string_of_bytes addr /\
      rd c = [SOCKS5Version; Cmd m; ReservedField; TypeDomain]
             ++ [byte_of_Z (len addr)] ++ addr ++ [b0; b1] ++ rd c')).
Proof.
  intros H.
  pose proof (reader_NewClientRequestMessage IP_String c) as [_ Hq].
  rewrite H in Hq. cbn [fst] in Hq. destruct Hq as (_ & Hat & _).
  revert H. unfold NewClientRequestMessage. unfold bind at 1.
  destruct (ReadFull (make 4) c) as [[buf| | |] c1] eqn:E1; try discriminate.
  apply ReadFull_inv in E1. destruct E1 as (Hl1 & Hrd1 & Hc1).
  destruct buf as [|v [|cmd [|rsv [|atyp [|? ?]]]]]; try discriminate.
  destruct (Byte.eqb v SOCKS5Version) eqn:Ev; [|discriminate].
  apply Byte.byte_dec_bl in Ev. subst v. cbn [negb].
  destruct (negb (Byte.eqb cmd CmdConnect) && negb (Byte.eqb cmd CmdBind)
            && negb (Byte.eqb cmd CmdUDP)); [discriminate|].
  destruct (Byte.eqb rsv ReservedField) eqn:Er; [|discriminate].
  apply Byte.byte_dec_bl in Er. subst rsv. cbn [negb].
  destruct (negb (Byte.eqb atyp TypeIPv4) && negb (Byte.eqb atyp TypeIPv6)
            && negb (Byte.eqb atyp TypeDomain)); [discriminate|].
  unfold bind at 1.
  match goal with
  | |- (let (_, _) := ?addrStep c1 in _) = _ -> _ =>
    destruct (addrStep c1) as [[[buf ip]| | |] c2] eqn:E2; try discriminate
  end.
  intros Hport. apply read_port_inv in Hport.
  destruct Hport as (b0 & b1 & Hrd3 & Hc3 & ->).
  cbn [Cmd AddrType Port TargetIP] in *.
  rewrite port_of_bytes_big_endian.
  destruct Hat as [ -> | [ -> | -> ] ].
  - change (Byte.eqb TypeIPv4 TypeIPv6) with false in E2.
    change (Byte.eqb TypeIPv4 TypeIPv4) with true in E2. cbv iota in E2.
    unfold bind in E2.
    destruct (ReadFull _ c1) as [[out| | |] c1'] eqn:E; try discriminate.
    cbn [ret] in E2. injection E2 as Hb Hip Hc. subst buf ip c1'.
    apply ReadFull_inv in E. destruct E as (Hlo & Hrd & _).
    exists out, b0, b1. split; [reflexivity|]. left.
    repeat split; try assumption.
    rewrite Hrd1. cbn [app]. rewrite Hrd, Hrd3. reflexivity.
  - change (Byte.eqb TypeIPv6 TypeIPv6) with true in E2. cbv iota in E2.
    unfold bind in E2.
    destruct (ReadFull _ c1) as [[out| | |] c1'] eqn:E; try discriminate.
    cbn [ret] in E2. injection E2 as Hb Hip Hc. subst buf ip c1'.
    apply ReadFull_inv in E. destruct E as (Hlo & Hrd & _).
    exists out, b0, b1. split; [reflexivity|]. right. left.
    repeat split; try assumption.
    rewrite Hrd1. cbn [app]. rewrite Hrd, Hrd3. reflexivity.
  - change (Byte.eqb TypeDomain TypeIPv6) with false in E2.
    change (Byte.eqb TypeDomain TypeIPv4) with false in E2.
    change (Byte.eqb TypeDomain TypeDomain) with true in E2. cbv iota in E2.
    unfold bind in E2.
    destruct (ReadFullTo _ 1 c1) as [[out| | |] c1a] eqn:Ea; try discriminate.
    apply ReadFullTo_inv in Ea. destruct Ea as (d1 & _ & Hl & Hrda & _ & Hout).
    apply len_1_inv in Hl. destruct Hl as (n & ->).
    subst out. cbn [app] in E2. rewrite index_0 in E2. cbn [checked ret] in E2.
    destruct (ReadFullTo _ (Z_of_byte n) c1a) as [[out2| | |] c1b] eqn:Eb;
      try discriminate.
    apply ReadFullTo_inv in Eb. destruct Eb as (d2 & Hhi & Hl2 & Hrdb & _ & Hout2).
    subst out2. unfold slice_to in E2.
    replace (0 <=? Z_of_byte n) with true in E2 by (symmetry; apply Z.leb_le; lia).
    match type of E2 with
    | context [Z_of_byte n <=? ?x] =>
      replace (Z_of_byte n <=? x) with true in E2
        by (symmetry; apply Z.leb_le; rewrite len_app; unfold len at 2;
            rewrite length_skipn; unfold len in *; lia)
    end.
    cbn [andb checked ret] in E2. rewrite (firstn_len_app d2 _ _ Hl2) in E2.
    injection E2 as Hb Hip Hc. subst buf ip c1b.
    pose proof (Z_of_byte_range n) as Hn.
    exists d2, b0, b1. split; [reflexivity|]. right. right.
    split; [reflexivity|]. split; [unfold len in Hl2; lia|].
    split; [reflexivity|].
    rewrite Hl2, byte_of_Z_of_byte.
    rewrite Hrd1. cbn [app]. rewrite Hrda. cbn [app]. rewrite Hrdb, Hrd3. reflexivity.
Qed.

Lemma NewClientRequestMessage_consumes_witness :
  exists addr b0 b1,
    8080 = Z_of_byte b0 * 256 + Z_of_byte b1 /\
    ((TypeDomain = TypeIPv4 /\ length addr = 4%nat /\ "go" = net_IP_String addr /\
      [x05; x01; x00; x03; x02; x67; x6f; x1f; x90; xaa] =
      [x05; x01; x00; x01] ++ addr ++ [b0; b1] ++ [xaa]) \/
     (TypeDomain = TypeIPv6 /\ length addr = 16%nat /\ "go" = net_IP_String addr /\
      [x05; x01; x00; x03; x02; x67; x6f; x1f; x90; xaa] =
      [x05; x01; x00; x04] ++ addr ++ [b0; b1] ++ [xaa]) \/
     (TypeDomain = TypeDomain /\ (length addr <= 255)%nat /\
      "go" = string_of_bytes addr /\
      [x05; x01; x00; x03; x02; x67; x6f; x1f; x90; xaa] =
      [x05; x01; x00; x03] ++ [byte_of_Z (len addr)] ++ addr ++ [b0; b1] ++ [xaa])).
Proof.
  exact (NewClientRequestMessage_consumes net_IP_String
           (conn_of [x05; x01; x00; x03; x02; x67; x6f; x1f; x90; xaa])
           (conn_of [xaa])
           (mkClientRequestMessage CmdConnect TypeDomain "go" 8080)
           eq_refl).
Defined.

(** ** The password message: what is accepted, and the one panic *)

Lemma byte_add_one (u : byte) :
  u <> xff -> Z_of_byte (byte_add u x01) = Z_of_byte u + 1.
Proof.
  intros Hu. unfold byte_add. change (Z_of_byte x01) with 1.
  pose proof (Z_of_byte_range u) as Hr.
  assert (Z_of_byte u <> 255).
  { intros E. apply Hu. rewrite <- (byte_of_Z_of_byte u), E. reflexivity. }
  apply Z_of_byte_small. lia.
Qed.

Lemma byte_add_one_zero (u : byte) :
  Z_of_byte (byte_add u x01) = 0 -> u = xff.
Proof.
  intros H. destruct (Byte.byte_eq_dec u xff) as [E|E]; [exact E|].
  rewrite (byte_add_one u E) in H. pose proof (Z_of_byte_range u). lia.
Qed.

Lemma ReadFull_Ok_open (buf data : list byte) (c c' : Conn) :
  ReadFull buf c = (Ok data, c') -> buf <> [] -> closed c = false.
Proof.
  unfold ReadFull. destruct buf as [|b buf']; [congruence|]. cbn [length].
  destruct (closed c); [discriminate | reflexivity].
Qed.

Lemma last_split (l a : list byte) (b : byte) :
  slice_to l (len l - 1) = Some a ->
  index l (len l - 1) = Some b ->
  l = a ++ [b].
Proof.
  destruct l as [|x l'] using rev_ind.
  - unfold slice_to. cbn. discriminate.
  - clear IHl'. replace (len (l' ++ [x]) - 1) with (len l')
      by (rewrite len_app; unfold len; cbn [length]; lia).
    rewrite slice_to_app, index_app. intros E1 E2.
    injection E1 as <-. injection E2 as <-. reflexivity.
Qed.

(** The parser behind the version check, for a name length other than 255. *)
Lemma password_rest_reader (usernameLen : byte) :
  usernameLen <> xff ->
  reader
    (buf <- ReadFull (make (Z_of_byte (byte_add usernameLen x01))) ;;
     username <- checked (slice_to buf (len buf - 1)) "slice bounds out of range" ;;
     passwordLen <- checked (index buf (len buf - 1)) "index out of range" ;;
     let buf := if len buf <? Z_of_byte passwordLen
                then make (Z_of_byte passwordLen) else buf in
     buf <- ReadFullTo buf (Z_of_byte passwordLen) ;;
     password <- checked (slice_to buf (Z_of_byte passwordLen))
                         "slice bounds out of range" ;;
     ret (mkClientPasswordMessage (string_of_bytes username)
                                  (string_of_bytes password)))
    (fun _ => True).
Proof.
  intros Hu. pose proof (Z_of_byte_range usernameLen) as Hr.
  eapply reader_bind; [apply reader_ReadFull|]. cbv beta.
  intros buf Hl. rewrite length_make, (byte_add_one _ Hu) in Hl.
  assert (Hlen : 1 <= len buf) by (unfold len; lia).
  eapply reader_bind with (P := fun _ => True).
  { apply reader_checked. eexists. split; [apply slice_to_in_range; lia | exact I]. }
  intros username _.
  destruct (index_in_range buf (len buf - 1) ltac:(lia)) as (pl & Hpl).
  eapply reader_bind with (P := fun _ => True).
  { apply reader_checked. exists pl. split; [exact Hpl | exact I]. }
  intros passwordLen _. cbv zeta.
  pose proof (Z_of_byte_range passwordLen) as Hp.
  set (buf' := if len buf <? Z_of_byte passwordLen
               then make (Z_of_byte passwordLen) else buf).
  assert (Hbuf : Z_of_byte passwordLen <= len buf').
  { subst buf'. destruct (len buf <? Z_of_byte passwordLen) eqn:E.
    - unfold len at 1. rewrite length_make. lia.
    - apply Z.ltb_ge in E. exact E. }
  eapply reader_bind; [apply reader_ReadFullTo; lia|]. cbv beta.
  intros out [Ho _].
  eapply reader_bind with (P := fun _ => True).
  { apply reader_checked. eexists. split; [apply slice_to_in_range; lia | exact I]. }
  intros password _. apply reader_ret. exact I.
Qed.

Lemma NewClientPasswordMessage_cases (c : Conn) :
  (closed c = false /\ exists rest, rd c = PasswordMethodVersion :: xff :: rest) \/
  (reads_only c (snd (NewClientPasswordMessage c)) /\
   match fst (NewClientPasswordMessage c) with
   | Ok _ => True
   | Err _ => True
   | Panic _ => False
   | Pending => False
   end).
Proof.
  pose proof (reader_ReadFull (make 2) c) as [Hr1 Hq1].
  destruct (ReadFull (make 2) c) as [[buf|e|w|] c1] eqn:E1; cbn [fst snd] in *;
    try contradiction.
  - rewrite length_make in Hq1. change (Z.to_nat 2) with 2%nat in Hq1.
    destruct buf as [|v [|u [|? ?]]]; try discriminate.
    destruct (Byte.eqb v PasswordMethodVersion) eqn:Ev.
    + apply Byte.byte_dec_bl in Ev. subst v.
      destruct (Byte.byte_eq_dec u xff) as [Eu|Eu].
      * subst u. left. split.
        -- apply (ReadFull_Ok_open _ _ _ _ E1). discriminate.
        -- apply ReadFull_inv in E1. destruct E1 as (_ & Hrd & _).
           exists (rd c1). exact Hrd.
      * right. pose proof (password_rest_reader u Eu c1) as [Hr2 Hq2].
        match type of Hr2 with
        | reads_only _ (snd (?k c1)) =>
          assert (Heq : NewClientPasswordMessage c = k c1)
            by (unfold NewClientPasswordMessage; unfold bind at 1; rewrite E1;
                reflexivity)
        end.
        rewrite Heq. split.
        -- eapply reads_only_trans; [exact Hr1 | exact Hr2].
        -- destruct (fst _); auto.
    + right. unfold NewClientPasswordMessage, bind. rewrite E1, Ev. cbn [negb throw fst snd].
      split; [exact Hr1 | exact I].
  - right. unfold NewClientPasswordMessage, bind. rewrite E1. cbn [fst snd].
    split; [exact Hr1 | exact I].
Qed.

(** X7. The parser of the password message panics on exactly one kind of
    input: the version byte 1 followed by the name length 255.  On every
    other input, complete or cut short, it returns a message or an error. *)
Theorem NewClientPasswordMessage_panics_iff (c : Conn) :
  (exists why, fst (NewClientPasswordMessage c) = Panic why) <->
  (closed c = false /\ exists rest, rd c = PasswordMethodVersion :: xff :: rest).
Proof.
  split.
  - intros (why & H). destruct (NewClientPasswordMessage_cases c) as [Hp|[_ Hq]].
    + exact Hp.
    + rewrite H in Hq. contradiction.
  - intros (Hc & rest & Hrd).
    rewrite (NewClientPasswordMessage_ulen_255 c rest Hc Hrd).
    exists "slice bounds out of range". reflexivity.
Qed.

Lemma Z_of_byte_below_255 (u : byte) : u <> xff -> Z_of_byte u <= 254.
Proof.
  intros Hu. pose proof (Z_of_byte_range u).
  assert (Z_of_byte u <> 255).
  { intros E. apply Hu. rewrite <- (byte_of_Z_of_byte u), E. reflexivity. }
  lia.
Qed.

(** X8. The parser of the password message accepts exactly the frames
    VER ULEN UNAME PLEN PASSWD with VER = 1 and a user name of at most 254
    bytes: it returns the user name and the password as the exact bytes of
    the frame (empty ones included), and stops right behind the password. *)
Theorem NewClientPasswordMessage_exactly (c c' : Conn) (cpm : ClientPasswordMessage) :
  closed c = false ->
  (NewClientPasswordMessage c = (Ok cpm, c') <->
   exists u p,
     (length u <= 254)%nat /\ (length p <= 255)%nat /\
     cpm = mkClientPasswordMessage (string_of_bytes u) (string_of_bytes p) /\
     rd c = [PasswordMethodVersion; byte_of_Z (len u)] ++ u
            ++ [byte_of_Z (len p)] ++ p ++ rd c' /\
     c' = set_rd (rd c') c).
Proof.
  intros Hc. split.
  - unfold NewClientPasswordMessage, bind.
    destruct (ReadFull (make 2) c) as [[buf| | |] c1] eqn:E1; try discriminate.
    apply ReadFull_inv in E1. destruct E1 as (Hl1 & Hrd1 & Hc1).
    destruct buf as [|v [|u [|? ?]]]; try discriminate.
    destruct (Byte.eqb v PasswordMethodVersion) eqn:Ev; [|discriminate].
    apply Byte.byte_dec_bl in Ev. subst v. cbn [negb].
    destruct (ReadFull (make (Z_of_byte (byte_add u x01))) c1)
      as [[b2| | |] c2] eqn:E2; try discriminate.
    apply ReadFull_inv in E2. destruct E2 as (Hl2 & Hrd2 & Hc2).
    destruct (slice_to b2 (len b2 - 1)) as [un|] eqn:Es; [|discriminate].
    destruct (index b2 (len b2 - 1)) as [pl|] eqn:Ei; [|discriminate].
    cbn [checked ret].
    pose proof (last_split b2 un pl Es Ei) as Hb2.
    assert (Hu : u <> xff).
    { intros ->. rewrite Hb2, length_app in Hl2. cbn in Hl2. lia. }
    rewrite length_make, (byte_add_one u Hu) in Hl2.
    pose proof (Z_of_byte_below_255 u Hu) as Hu254.
    pose proof (Z_of_byte_range u) as Hur.
    assert (Hlun : len un = Z_of_byte u).
    { rewrite Hb2, length_app in Hl2. cbn [length] in Hl2. unfold len. lia. }
    destruct (ReadFullTo _ (Z_of_byte pl) c2) as [[out| | |] c3] eqn:E3;
      try discriminate.
    apply ReadFullTo_inv in E3.
    destruct E3 as (d2 & Hhi & Hl3 & Hrd3 & Hc3 & Hout).
    destruct (slice_to out (Z_of_byte pl)) as [pw|] eqn:Es2; [|discriminate].
    apply slice_to_length in Es2. destruct Es2 as (_ & _ & Hpw).
    rewrite Hout, (firstn_len_app d2 _ _ Hl3) in Hpw. subst pw.
    intros H. injection H as <- <-.
    pose proof (Z_of_byte_range pl) as Hpr.
    exists un, d2. split; [unfold len in Hlun; lia|].
    split; [unfold len in Hl3; lia|]. split; [reflexivity|]. split.
    + rewrite Hlun, Hl3, !byte_of_Z_of_byte.
      rewrite Hrd1. cbn [app]. rewrite Hrd2, Hb2, Hrd3, <- app_assoc. reflexivity.
    + rewrite Hc3, Hc2, Hc1. reflexivity.
  - intros (u & p & Hu & Hp & -> & Hrd & ->).
    apply NewClientPasswordMessage_wire; assumption.
Qed.

Lemma NewClientPasswordMessage_exactly_witness :
  NewClientPasswordMessage (conn_of ([x01; x00; x03] ++ bytes "key" ++ [x05])) =
  (Ok (mkClientPasswordMessage "" "key"), conn_of [x05]).
Proof.
  apply (proj2 (NewClientPasswordMessage_exactly
                  (conn_of ([x01; x00; x03] ++ bytes "key" ++ [x05]))
                  (conn_of [x05]) (mkClientPasswordMessage "" "key") eq_refl)).
  exists [], (bytes "key"). cbn. repeat split; lia.
Defined.

(** * Further properties of the handshake *)

Lemma Write_Ok_wr (p : list byte) (c c' : Conn) :
  Write p c = (Ok tt, c') -> wr c' = wr c ++ p /\ rd c' = rd c /\ closed c' = closed c.
Proof.
  unfold Write. destruct (closed c) eqn:Ec; [discriminate|].
  destruct (wcap c) as [k|].
  - destruct (length p <=? k)%nat; [|discriminate].
    intros H. injection H as <-. cbn. auto.
  - intros H. injection H as <-. cbn. auto.
Qed.

Lemma NewClientPasswordMessage_not_panic_reads (c c' : Conn)
    (r : outcome ClientPasswordMessage) :
  NewClientPasswordMessage c = (r, c') ->
  (forall why, r <> Panic why) ->
  reads_only c c'.
Proof.
  intros H Hr. destruct (NewClientPasswordMessage_cases c) as [(Hc & rest & Hrd)|[Hro _]].
  - rewrite (NewClientPasswordMessage_ulen_255 c rest Hc Hrd) in H.
    injection H as <- _. exfalso. eapply Hr. reflexivity.
  - rewrite H in Hro. exact Hro.
Qed.

(** X9. A greeting that cannot be parsed (wrong version, or cut short) gets
    no reply: [auth] returns the error of the parser and has written
    nothing. *)
Theorem auth_greeting_error_no_reply (s : Config) (c c' : Conn) (e : error) :
  NewClientAuthMessage c = (Err e, c') ->
  auth s c = (Err e, c') /\ wr c' = wr c.
Proof.
  intros H. split.
  - unfold auth. unfold bind at 1. rewrite H. reflexivity.
  - pose proof (reader_NewClientAuthMessage c) as [Hr _]. rewrite H in Hr.
    apply (reads_only_fields _ _ Hr).
Qed.

Lemma auth_greeting_error_no_reply_witness :
  auth passwordConfig (conn_of [x05; x03; x00]) =
  (Err ErrUnexpectedEOF, conn_of []).
Proof.
  exact (proj1 (auth_greeting_error_no_reply passwordConfig
                  (conn_of [x05; x03; x00]) (conn_of []) ErrUnexpectedEOF eq_refl)).
Defined.

(** X10. With the password method selected, a password message that cannot
    be parsed (wrong sub-negotiation version, or cut short) gets no status
    reply: [auth] returns the error of the parser, and all it has written is
    the method selection [05 02]. *)
Theorem auth_password_message_error (s : Config) (c c1 c2 c3 : Conn)
    (m : ClientAuthMessage) (e : error) :
  AuthMethod s = MethodPassword ->
  NewClientAuthMessage c = (Ok m, c1) ->
  acceptable MethodPassword (Methods m) = true ->
  SendServerAuthMessage MethodPassword c1 = (Ok tt, c2) ->
  NewClientPasswordMessage c2 = (Err e, c3) ->
  auth s c = (Err e, c3) /\
  wr c3 = wr c ++ [SOCKS5Version; MethodPassword].
Proof.
  intros Hmeth Hm Ha Hsend Hpw. split.
  - unfold auth, bind. rewrite Hm, Hmeth, Ha. cbn [negb]. rewrite Hsend.
    change (Byte.eqb MethodPassword MethodPassword) with true. cbv beta iota.
    rewrite Hpw. reflexivity.
  - pose proof (reader_NewClientAuthMessage c) as [Hr1 _]. rewrite Hm in Hr1.
    destruct (reads_only_fields _ _ Hr1) as (Hw1 & _).
    destruct (Write_Ok_wr _ _ _ Hsend) as (Hw2 & _).
    assert (Hr3 : reads_only c2 c3).
    { apply (NewClientPasswordMessage_not_panic_reads _ _ _ Hpw). discriminate. }
    destruct (reads_only_fields _ _ Hr3) as (Hw3 & _).
    rewrite Hw3, Hw2. cbn [fst snd] in Hw1. rewrite Hw1. reflexivity.
Qed.

Lemma auth_password_message_error_witness :
  auth passwordConfig (conn_of [x05; x01; x02; x05; x01; x61; x01; x62]) =
  (Err ErrMethodVersionNotSupported,
   mkConn [x61; x01; x62] EOF [x05; x02] None (ErrOther "write") false).
Proof.
  exact (proj1 (auth_password_message_error passwordConfig
                  (conn_of [x05; x01; x02; x05; x01; x61; x01; x62])
                  (conn_of [x05; x01; x61; x01; x62])
                  (mkConn [x05; x01; x61; x01; x62] EOF [x05; x02] None
                          (ErrOther "write") false)
                  (mkConn [x61; x01; x62] EOF [x05; x02] None (ErrOther "write") false)
                  (mkClientAuthMessage x05 x01 [x02]) ErrMethodVersionNotSupported
                  eq_refl eq_refl eq_refl eq_refl eq_refl)).
Defined.

(** X11. The method negotiation for a configured method other than the
    password method, on every greeting of the wire layout: if the configured
    method is among the offered ones, [auth] answers [05 method] and
    succeeds, with the bytes behind the greeting left unread; if it is not,
    [auth] answers [05 FF] and fails. *)
Theorem auth_method_selection (s : Config) (c : Conn) (methods rest : list byte) :
  room 2 c ->
  (length methods <= 255)%nat ->
  rd c = SOCKS5Version :: byte_of_Z (len methods) :: methods ++ rest ->
  AuthMethod s <> MethodPassword ->
  (In (AuthMethod s) methods ->
     fst (auth s c) = Ok tt /\
     wr (snd (auth s c)) = wr c ++ [SOCKS5Version; AuthMethod s] /\
     rd (snd (auth s c)) = rest) /\
  (~ In (AuthMethod s) methods ->
     (exists e, fst (auth s c) = Err e) /\
     wr (snd (auth s c)) = wr c ++ [SOCKS5Version; MethodNoAcceptable] /\
     rd (snd (auth s c)) = rest).
Proof.
  intros Hroom Hl Hrd Hp.
  pose proof (NewClientAuthMessage_greeting c methods rest (proj1 Hroom) Hl Hrd) as Hm.
  assert (Hroom' : room 2 (set_rd rest c)) by exact Hroom.
  split; intros Hin.
  - rewrite (auth_selected s c _ _ Hm) by (try apply acceptable_In; assumption).
    destruct (Write_room [SOCKS5Version; AuthMethod s] _ Hroom') as (cap & Hw & _).
    unfold SendServerAuthMessage. rewrite Hw. repeat split.
  - rewrite (auth_not_acceptable s c _ _ Hm).
    + destruct (Write_room [SOCKS5Version; MethodNoAcceptable] _ Hroom') as (cap & Hw & _).
      unfold SendServerAuthMessage. rewrite Hw. cbn [fst snd].
      split; [eexists; reflexivity|]. split; reflexivity.
    + cbn [Methods]. destruct (acceptable (AuthMethod s) methods) eqn:E; [|reflexivity].
      apply acceptable_In in E. contradiction.
Qed.

Lemma auth_method_selection_witness :
  fst (auth noAuthConfig (conn_of [x05; x02; x02; x00; x05; x01])) = Ok tt /\
  wr (snd (auth noAuthConfig (conn_of [x05; x02; x02; x00; x05; x01]))) = [x05; x00] /\
  rd (snd (auth noAuthConfig (conn_of [x05; x02; x02; x00; x05; x01]))) = [x05; x01].
Proof.
  refine (proj1 (auth_method_selection noAuthConfig
                   (conn_of [x05; x02; x02; x00; x05; x01]) [x02; x00] [x05; x01]
                   (conj eq_refl I) _ eq_refl _) _).
  - cbn. lia.
  - discriminate.
  - right. left. reflexivity.
Defined.

(** ** When [auth] succeeds *)




(** X13. [initConfig] accepts a configuration exactly when [auth] can never
    call a nil password check: it refuses the password method without a
    check, the one configuration for which [auth] panics on a nil function,
    and no other. *)
Theorem initConfig_guards_nil_check (s : Config) :
  initConfig s = Ok tt <->
  (forall c, fst (auth s c) <> Panic "nil function").
Proof.
  split.
  - intros Hi c. unfold initConfig in Hi. unfold auth, bind.
    pose proof (reader_NewClientAuthMessage c) as [_ Hq1].
    destruct (NewClientAuthMessage c) as [[m| | |] c1]; cbn [fst] in Hq1;
      try contradiction; try (cbn; discriminate).
    destruct (acceptable (AuthMethod s) (Methods m)); cbn [negb].
    2:{ unfold discard, throw.
        destruct (SendServerAuthMessage MethodNoAcceptable c1) as [[[]| | |] ?] eqn:E;
          try (cbn; discriminate);
          unfold SendServerAuthMessage in E;
          destruct (Write_outcome [SOCKS5Version; MethodNoAcceptable] c1) as [W|[e W]];
          rewrite W in E; discriminate. }
    destruct (Write_outcome [SOCKS5Version; AuthMethod s] c1) as [W|[e W]];
      unfold SendServerAuthMessage; rewrite W; [|cbn; discriminate].
    destruct (Byte.eqb (AuthMethod s) MethodPassword); [|cbn; discriminate].
    cbn [andb] in Hi.
    destruct (NewClientPasswordMessage_cases (snd (Write [SOCKS5Version; AuthMethod s] c1)))
      as [(Hc & rest & Hrd)|[_ Hq]].
    + rewrite (NewClientPasswordMessage_ulen_255 _ rest Hc Hrd). cbn. discriminate.
    + destruct (NewClientPasswordMessage _) as [[cpm| | |] c3]; cbn [fst] in Hq;
        try contradiction; try (cbn; discriminate).
      destruct (PasswordChecker s) as [check|]; [|discriminate]. cbn [ret].
      destruct (check (Username cpm) (Password cpm)); cbn [negb].
      * destruct (Write_outcome [PasswordMethodVersion; PasswordAuthSuccess] c3)
          as [W'|[e W']]; unfold WriteServerPasswordMessage; rewrite W';
          cbn; discriminate.
      * unfold discard, throw.
        destruct (Write_outcome [PasswordMethodVersion; PasswordAuthFailure] c3)
          as [W'|[e W']]; unfold WriteServerPasswordMessage; rewrite W';
          cbn; discriminate.
  - intros H. unfold initConfig.
    destruct (Byte.eqb (AuthMethod s) MethodPassword) eqn:Ep; [|reflexivity].
    destruct (PasswordChecker s) as [check|] eqn:Ec; [reflexivity|].
    exfalso. apply (H (conn_of [x05; x01; x02; x01; x00; x00])).
    apply Byte.byte_dec_bl in Ep. unfold auth, bind. rewrite Ep, Ec. reflexivity.
Qed.

(** * Further properties of the request stage *)

(** ** What is dialed, and when *)

Lemma keeps_dialed_on_client {A} (m : M Conn A) : keeps_dialed (on_client m).
Proof.
  intros w. unfold on_client. destruct (m (client w)). reflexivity.
Qed.

Lemma keeps_dialed_on_both {A} (m : M (Conn * Conn) A) : keeps_dialed (on_both m).
Proof.
  intros w. unfold on_both. destruct (target w) as [t|]; [|reflexivity].
  destruct (m (client w, t)) as [r [c' t']]. reflexivity.
Qed.

Lemma keeps_dialed_discard {A} (m : M World A) :
  keeps_dialed m -> keeps_dialed (discard m).
Proof.
  intros H w. unfold discard. specialize (H w).
  destruct (m w) as [[a|e|why|] w']; exact H.
Qed.

Lemma keeps_dialed_throw {A} (e : error) : keeps_dialed (@throw World A e).
Proof. intros w. reflexivity. Qed.

Lemma keeps_dialed_ret {A} (a : A) : keeps_dialed (@ret World A a).
Proof. intros w. reflexivity. Qed.

Lemma keeps_dialed_bind {A B} (m : M World A) (k : A -> M World B) :
  keeps_dialed m -> (forall a, keeps_dialed (k a)) -> keeps_dialed (bind m k).
Proof.
  intros Hm Hk w. unfold bind. specialize (Hm w).
  destruct (m w) as [[a|e|why|] w']; cbn [snd] in *; try exact Hm.
  rewrite (Hk a w'). exact Hm.
Qed.

(** [handleTCP] dials once, the address of the message, whatever happens
    next. *)
Lemma handleTCP_dialed (DialTimeout : string -> Z -> Target + error)
    (sched : list thread) (s : Config) (m : ClientRequestMessage) (w : World) :
  dialed (snd (handleTCP DialTimeout sched s m w)) = dialed w ++ [target_address m].
Proof.
  unfold handleTCP. fold (target_address m). unfold bind at 1. unfold attempt, dial.
  destruct (DialTimeout (target_address m) (TCPTimeout s)) as [t|e].
  - match goal with
    | |- dialed (snd (?k ?w1)) = _ =>
      assert (Hk : keeps_dialed k); [|exact (Hk w1)]
    end.
    apply keeps_dialed_bind; [apply keeps_dialed_on_client|].
    intros _. apply keeps_dialed_on_both.
  - match goal with
    | |- dialed (snd (?k ?w1)) = _ =>
      assert (Hk : keeps_dialed k); [|exact (Hk w1)]
    end.
    apply keeps_dialed_bind; [|intros _; apply keeps_dialed_throw].
    apply keeps_dialed_discard, keeps_dialed_on_client.
Qed.

Lemma handleConnection_dialed_cases
    (IP_String : list byte -> string) (DialTimeout : string -> Z -> Target + error)
    (sched : list thread) (s : Config) (w : World) :
  dialed (snd (handleConnection IP_String DialTimeout sched s w)) = dialed w \/
  exists c1 c2 m,
    auth s (client w) = (Ok tt, c1) /\
    NewClientRequestMessage IP_String c1 = (Ok m, c2) /\
    Cmd m = CmdConnect /\ AddrType m <> TypeIPv6 /\
    dialed (snd (handleConnection IP_String DialTimeout sched s w)) =
      dialed w ++ [target_address m].
Proof.
  remember (handleConnection IP_String DialTimeout sched s w) as R eqn:HR.
  revert HR.
  unfold handleConnection. unfold bind at 1. unfold on_client at 1.
  destruct (auth s (client w)) as [[[]|e|why|] c1] eqn:Ea;
    try (intros ->; left; reflexivity).
  unfold request. unfold bind at 1. unfold on_client at 1. cbn [client target dialed].
  destruct (NewClientRequestMessage IP_String c1) as [[m|e|why|] c2] eqn:Em;
    try (intros ->; left; reflexivity).
  destruct (Byte.eqb (AddrType m) TypeIPv6) eqn:E6.
  { intros ->. left. unfold bind. rewrite discard_failure_reply. reflexivity. }
  destruct (Byte.eqb (Cmd m) CmdConnect) eqn:Ec.
  - intros ->. right. exists c1, c2, m.
    apply Byte.byte_dec_bl in Ec. apply Byte.eqb_false in E6.
    repeat split; try assumption.
    rewrite handleTCP_dialed. reflexivity.
  - destruct (Byte.eqb (Cmd m) CmdUDP); intros ->; left; [reflexivity|].
    unfold bind. rewrite discard_failure_reply. reflexivity.
Qed.

(** X14. The handler of a connection dials at most once, and only when
    [auth] has returned nil and the request that follows is a parsed CONNECT
    whose address type is not IPv6; the address dialed is then the text of the
    target address, a colon and the port in decimal.  In every other case
    (failed handshake, refused or unparsable request, BIND, UDP-associate)
    nothing is dialed. *)
Theorem handleConnection_dials_only_connect
    (IP_String : list byte -> string) (DialTimeout : string -> Z -> Target + error)
    (sched : list thread) (s : Config) (w : World) :
  dialed (snd (handleConnection IP_String DialTimeout sched s w)) = dialed w \/
  exists c1 c2 m,
    auth s (client w) = (Ok tt, c1) /\
    NewClientRequestMessage IP_String c1 = (Ok m, c2) /\
    Cmd m = CmdConnect /\ AddrType m <> TypeIPv6 /\
    dialed (snd (handleConnection IP_String DialTimeout sched s w)) =
      dialed w ++ [target_address m].
Proof.
  exact (handleConnection_dialed_cases IP_String DialTimeout sched s w).
Qed.



(** ** [handleTCP] when the dial or the reply fails *)

(** X16. When the dial fails, for whatever reason, [handleTCP] answers with
    the failure reply of status 05 (connection refused) and returns the
    error of the dial; no target connection has been opened. *)
Theorem handleTCP_dial_failure (DialTimeout : string -> Z -> Target + error)
    (sched : list thread) (s : Config) (m : ClientRequestMessage) (w : World)
    (err : error) :
  DialTimeout (target_address m) (TCPTimeout s) = inr err ->
  handleTCP DialTimeout sched s m w =
    (Err err,
     mkWorld (snd (WriteRequestFailureMessage ReplyConnectionRefused (client w)))
             (target w) (dialed w ++ [target_address m])) /\
  (room 10 (client w) ->
   wr (snd (WriteRequestFailureMessage ReplyConnectionRefused (client w))) =
   wr (client w) ++ [x05; x05; x00; x01; x00; x00; x00; x00; x00; x00]).
Proof.
  intros Hd. split.
  - unfold handleTCP. fold (target_address m). unfold bind at 1. unfold attempt, dial.
    rewrite Hd. unfold bind. rewrite discard_failure_reply. reflexivity.
  - intros Hr. apply WriteRequestFailureMessage_room. exact Hr.
Qed.

Lemma handleTCP_dial_failure_witness :
  handleTCP refusing [] noAuthConfig
    (mkClientRequestMessage CmdConnect TypeDomain "example.com" 80)
    (accepted (conn_of [])) =
  (Err (ErrOther "connection refused"),
   mkWorld (mkConn [] EOF [x05; x05; x00; x01; x00; x00; x00; x00; x00; x00]
                   None (ErrOther "write") false)
           None ["example.com:80"]).
Proof.
  exact (proj1 (handleTCP_dial_failure refusing [] noAuthConfig
                  (mkClientRequestMessage CmdConnect TypeDomain "example.com" 80)
                  (accepted (conn_of [])) (ErrOther "connection refused") eq_refl)).
Defined.

(** X17. When the dial succeeds but the success reply cannot be written to
    the client, [handleTCP] returns the error of the write without relaying,
    and the connection to the target is left as the dial gave it: it is not
    closed. *)
Theorem handleTCP_reply_failure_leaves_target
    (DialTimeout : string -> Z -> Target + error)
    (sched : list thread) (s : Config) (m : ClientRequestMessage) (w : World)
    (t : Target) (e : error) (c' : Conn) :
  DialTimeout (target_address m) (TCPTimeout s) = inl t ->
  WriteRequestSuccessMessage (LocalIP t) (wrap16 (LocalPort t)) (client w) = (Err e, c') ->
  handleTCP DialTimeout sched s m w =
    (Err e, mkWorld c' (Some (tconn t)) (dialed w ++ [target_address m])).
Proof.
  intros Hd Hw.
  unfold handleTCP. fold (target_address m). unfold bind at 1. unfold attempt, dial.
  rewrite Hd. unfold bind, on_client. cbn [client target dialed]. rewrite Hw.
  reflexivity.
Qed.

Lemma handleTCP_reply_failure_leaves_target_witness :
  handleTCP loopback [Main; Main; Main] noAuthConfig
    (mkClientRequestMessage CmdConnect TypeDomain "example.com" 80)
    (accepted (mkConn [] EOF [] (Some 6%nat) (ErrOther "broken pipe") false)) =
  (Err (ErrOther "broken pipe"),
   mkWorld (mkConn [] EOF [x05; x00; x00; x01; x7f; x00] (Some 0%nat)
                   (ErrOther "broken pipe") false)
           (Some (conn_of (bytes "OK"))) ["example.com:80"]).
Proof.
  exact (handleTCP_reply_failure_leaves_target loopback [Main; Main; Main] noAuthConfig
           (mkClientRequestMessage CmdConnect TypeDomain "example.com" 80)
           (accepted (mkConn [] EOF [] (Some 6%nat) (ErrOther "broken pipe") false))
           (mkTarget (conn_of (bytes "OK")) [x7f; x00; x00; x01] 1080)
           (ErrOther "broken pipe")
           (mkConn [] EOF [x05; x00; x00; x01; x7f; x00] (Some 0%nat)
                   (ErrOther "broken pipe") false)
           eq_refl eq_refl).
Defined.

(** * Further properties of the relay *)

Lemma firstn_plus (l : list byte) (n k : nat) :
  firstn n l ++ firstn k (skipn n l) = firstn (n + k) l.
Proof.
  revert l. induction n as [|n IH]; intros l; [reflexivity|].
  destruct l as [|x l]; [cbn; rewrite firstn_nil; reflexivity|].
  cbn. rewrite IH. reflexivity.
Qed.

(** What one turn of a copy does to the two connections. *)
Lemma copy_turn_effect (dst src dst' src' : Conn) (r : option (option error)) :
  copy_turn dst src = (r, dst', src') ->
  rd dst' = rd dst /\ wr src' = wr src /\
  closed dst' = closed dst /\ closed src' = closed src /\
  match r with
  | None => exists k, wr dst' = wr dst ++ firstn k (rd src) /\
                      rd src' = skipn k (rd src)
  | Some None => rd src = [] /\ wr dst' = wr dst
  | Some (Some _) => exists k, wr dst' = wr dst ++ firstn k (rd src)
  end.
Proof.
  destruct dst as [drd dre dwr dk dwe dcl], src as [srd sre swr sk swe scl].
  unfold copy_turn, Write. generalize copyBuffer. intros n.
  cbn [rd rend wr wcap werr closed set_rd set_wr].
  destruct scl.
  { intros H. injection H as <- <- <-. cbn. repeat split.
    exists O. rewrite app_nil_r. reflexivity. }
  destruct srd as [|b l].
  { intros H. injection H as <- <- <-. cbn. repeat split.
    destruct (is_EOF sre); [auto|]. exists O. rewrite app_nil_r. reflexivity. }
  destruct dcl.
  { intros H. injection H as <- <- <-. cbn. repeat split.
    exists O. rewrite app_nil_r. reflexivity. }
  destruct dk as [k|].
  - destruct (length (firstn n (b :: l)) <=? k)%nat.
    + intros H. injection H as <- <- <-. cbn [rd wr closed]. repeat split.
      exists n. split; reflexivity.
    + intros H. injection H as <- <- <-. cbn [rd wr closed]. repeat split.
      exists (Nat.min k n). rewrite firstn_firstn. reflexivity.
  - intros H. injection H as <- <- <-. cbn [rd wr closed]. repeat split.
    exists n. split; reflexivity.
Qed.

(** Once the spawned copy has returned, nothing more is written to the
    target and nothing more is read from the client. *)
Lemma relay_unspawned (sched : list thread) :
  forall (c t c' t' : Conn) (r : option (option error)),
    relay sched false c t = (r, c', t') ->
    wr t' = wr t /\ rd c' = rd c /\
    closed c' = closed c /\ closed t' = closed t /\
    exists k, wr c' = wr c ++ firstn k (rd t).
Proof.
  induction sched as [|th sched IH]; intros c t c' t' r H.
  - injection H as <- <- <-. repeat split. exists O. rewrite app_nil_r. reflexivity.
  - destruct th; cbn [relay] in H.
    + destruct (copy_turn c t) as [[r1 c1] t1] eqn:E.
      apply copy_turn_effect in E. destruct E as (Hrd & Hwr & Hc1 & Hc2 & Hr).
      destruct r1 as [r1|].
      * injection H as <- <- <-. repeat split; try assumption.
        destruct r1 as [e|]; [exact Hr|]. destruct Hr as [_ ->].
        exists O. rewrite app_nil_r. reflexivity.
      * destruct Hr as (k & Hk & Hs).
        apply IH in H. destruct H as (A & B & C & D & (j & Hj)).
        repeat split; try congruence.
        exists (k + j)%nat. rewrite Hj, Hk, Hs, <- app_assoc, firstn_plus. reflexivity.
    + apply IH in H. exact H.
Qed.

(** In both directions the relay delivers a prefix of what the other side
    sent, in order, and it closes neither connection. *)
Lemma relay_prefixes (sched : list thread) :
  forall (spawned : bool) (c t c' t' : Conn) (r : option (option error)),
    relay sched spawned c t = (r, c', t') ->
    (exists k, wr c' = wr c ++ firstn k (rd t)) /\
    (exists j, wr t' = wr t ++ firstn j (rd c)) /\
    closed c' = closed c /\ closed t' = closed t.
Proof.
  induction sched as [|th sched IH]; intros spawned c t c' t' r H.
  - injection H as <- <- <-.
    repeat split; exists O; rewrite app_nil_r; reflexivity.
  - destruct th; cbn [relay] in H.
    + destruct (copy_turn c t) as [[r1 c1] t1] eqn:E.
      apply copy_turn_effect in E. destruct E as (Hrd & Hwr & Hc1 & Hc2 & Hr).
      destruct r1 as [r1|].
      * injection H as <- <- <-. repeat split; try assumption.
        -- destruct r1 as [e|]; [exact Hr|]. destruct Hr as [_ ->].
           exists O. rewrite app_nil_r. reflexivity.
        -- exists O. rewrite app_nil_r. exact Hwr.
      * destruct Hr as (k & Hk & Hs).
        apply IH in H. destruct H as ((k' & Hk') & (j & Hj) & C & D).
        repeat split; try congruence.
        -- exists (k + k')%nat.
           rewrite Hk', Hk, Hs, <- app_assoc, firstn_plus. reflexivity.
        -- exists j. rewrite Hj, Hwr, Hrd. reflexivity.
    + destruct spawned.
      * destruct (copy_turn t c) as [[r1 t1] c1] eqn:E.
        apply copy_turn_effect in E. destruct E as (Hrd & Hwr & Hc1 & Hc2 & Hr).
        destruct r1 as [r1|].
        -- apply relay_unspawned in H. destruct H as (A & B & C & D & (k & Hk)).
           repeat split; try congruence.
           ++ exists k. rewrite Hk, Hwr, Hrd. reflexivity.
           ++ rewrite A. destruct r1 as [e|]; [exact Hr|]. destruct Hr as [_ ->].
              exists O. rewrite app_nil_r. reflexivity.
        -- destruct Hr as (j & Hj & Hs).
           apply IH in H. destruct H as ((k & Hk) & (j' & Hj') & C & D).
           repeat split; try congruence.
           ++ exists k. rewrite Hk, Hwr, Hrd. reflexivity.
           ++ exists (j + j')%nat.
              rewrite Hj', Hj, Hs, <- app_assoc, firstn_plus. reflexivity.
      * apply relay_unspawned in H. destruct H as (A & B & C & D & E).
        repeat split; try assumption.
        exists O. rewrite app_nil_r. exact A.
Qed.

(** When the main copy returns nil, every byte of the target has reached the
    client. *)
Lemma relay_nil_delivers (sched : list thread) :
  forall (spawned : bool) (c t c' t' : Conn),
    relay sched spawned c t = (Some None, c', t') ->
    wr c' = wr c ++ rd t.
Proof.
  induction sched as [|th sched IH]; intros spawned c t c' t' H; [discriminate|].
  destruct th; cbn [relay] in H.
  - destruct (copy_turn c t) as [[r1 c1] t1] eqn:E.
    apply copy_turn_effect in E. destruct E as (_ & _ & _ & _ & Hr).
    destruct r1 as [r1|].
    + injection H as -> <- <-. destruct Hr as [-> ->].
      rewrite app_nil_r. reflexivity.
    + destruct Hr as (k & Hk & Hs). apply IH in H.
      rewrite H, Hk, Hs, <- app_assoc, firstn_skipn. reflexivity.
  - destruct spawned.
    + destruct (copy_turn t c) as [[r1 t1] c1] eqn:E.
      apply copy_turn_effect in E. destruct E as (Hrd & Hwr & _).
      destruct r1; apply IH in H; rewrite H, Hwr, Hrd; reflexivity.
    + apply IH in H. exact H.
Qed.

Lemma forward_nil_delivers (sched : list thread) (conn targetConn : Conn) :
  fst (forward sched (conn, targetConn)) = Ok tt ->
  wr (fst (snd (forward sched (conn, targetConn)))) = wr conn ++ rd targetConn.
Proof.
  unfold forward.
  destruct (relay sched true conn targetConn) as [[[[e|]|] c'] t'] eqn:E;
    cbn [fst snd]; try discriminate.
  intros _. apply (relay_nil_delivers sched true conn targetConn c' t' E).
Qed.

Lemma forward_prefixes (sched : list thread) (conn targetConn : Conn) :
  (exists k, wr (fst (snd (forward sched (conn, targetConn)))) =
             wr conn ++ firstn k (rd targetConn)) /\
  (exists j, wr (snd (snd (forward sched (conn, targetConn)))) =
             wr targetConn ++ firstn j (rd conn)) /\
  closed (fst (snd (forward sched (conn, targetConn)))) = closed conn.
Proof.
  unfold forward.
  destruct (relay sched true conn targetConn) as [[r c'] t'] eqn:E.
  apply relay_prefixes in E. destruct E as (A & B & C & D).
  destruct r as [[e|]|]; cbn [fst snd wr set_closed]; auto.
Qed.

(** X18. When [forward] returns nil, the client has been sent every byte the
    target sent, in order and nothing else, whatever the interleaving of the
    two copies. *)
Theorem forward_nil_delivers_all (sched : list thread) (conn targetConn : Conn) :
  fst (forward sched (conn, targetConn)) = Ok tt ->
  wr (fst (snd (forward sched (conn, targetConn)))) = wr conn ++ rd targetConn.
Proof.
  exact (forward_nil_delivers sched conn targetConn).
Qed.

Lemma forward_nil_delivers_all_witness :
  wr (fst (snd (forward [Spawned; Main; Main]
                  (conn_of (bytes "GET /"), conn_of (bytes "OK"))))) = [] ++ bytes "OK".
Proof.
  apply (forward_nil_delivers_all [Spawned; Main; Main]
           (conn_of (bytes "GET /")) (conn_of (bytes "OK"))).
  vm_compute. reflexivity.
Defined.

(** X19. However long the relay runs and however it ends (nil, an error, or
    still running), what has been written to the client is a prefix of what
    the target sent and what has been written to the target is a prefix of
    what the client sent, each in order; and [forward] does not close the
    connection of the client. *)
Theorem forward_in_order (sched : list thread) (conn targetConn : Conn) :
  (exists k, wr (fst (snd (forward sched (conn, targetConn)))) =
             wr conn ++ firstn k (rd targetConn)) /\
  (exists j, wr (snd (snd (forward sched (conn, targetConn)))) =
             wr targetConn ++ firstn j (rd conn)) /\
  closed (fst (snd (forward sched (conn, targetConn)))) = closed conn.
Proof.
  exact (forward_prefixes sched conn targetConn).
Qed.

(** * Further properties of the replies *)

Lemma Write_effect (p : list byte) (c : Conn) :
  rd (snd (Write p c)) = rd c /\ closed (snd (Write p c)) = closed c /\
  ((fst (Write p c) = Ok tt /\ wr (snd (Write p c)) = wr c ++ p) \/
   (exists e k, fst (Write p c) = Err e /\ (k <= length p)%nat /\
                wr (snd (Write p c)) = wr c ++ firstn k p)).
Proof.
  unfold Write. destruct (closed c) eqn:Ec.
  - cbn [fst snd]. repeat split; try assumption. right.
    exists ErrClosed, O. rewrite app_nil_r. repeat split. lia.
  - destruct (wcap c) as [k|].
    + destruct (length p <=? k)%nat eqn:El; cbn [fst snd rd wr closed set_wr].
      * repeat split; try assumption. left. split; reflexivity.
      * repeat split; try assumption. right. exists (werr c), k.
        apply Nat.leb_gt in El. repeat split. lia.
    + cbn [fst snd rd wr closed set_wr]. repeat split; try assumption.
      left. split; reflexivity.
Qed.

Lemma firstn_short_app (a b : list byte) (k : nat) :
  (k <= length a)%nat -> firstn k (a ++ b) = firstn k a.
Proof.
  intros H. rewrite firstn_app. replace (k - length a)%nat with O by lia.
  rewrite firstn_O, app_nil_r. reflexivity.
Qed.

(** X20. Whatever the writer of the client does and whatever the length of
    the bound address, what [WriteRequestSuccessMessage] writes is a prefix
    of the frame 05 00 00 ATYP BND.ADDR BND.PORT, where ATYP is 04 for an
    address of more than four bytes and 01 otherwise; it returns nil only
    when the whole frame has been written, never reads, and never closes the
    connection. *)
Theorem WriteRequestSuccessMessage_prefix (ip : list byte) (port : Z) (c : Conn) :
  let frame := [SOCKS5Version; ReplySuccess; ReservedField;
                if len ip >? IPv4Length then TypeIPv6 else TypeIPv4]
               ++ ip ++ port_bytes port in
  (exists k, wr (snd (WriteRequestSuccessMessage ip port c)) = wr c ++ firstn k frame) /\
  (fst (WriteRequestSuccessMessage ip port c) = Ok tt ->
   wr (snd (WriteRequestSuccessMessage ip port c)) = wr c ++ frame) /\
  rd (snd (WriteRequestSuccessMessage ip port c)) = rd c /\
  closed (snd (WriteRequestSuccessMessage ip port c)) = closed c.
Proof.
  cbv zeta. unfold WriteRequestSuccessMessage, bind.
  set (hdr := [SOCKS5Version; ReplySuccess; ReservedField;
               if len ip >? IPv4Length then TypeIPv6 else TypeIPv4]).
  set (pb := port_bytes port).
  destruct (Write_effect hdr c) as (R1 & C1 & W1).
  destruct (Write hdr c) as [[[]|e1|?|] c1]; cbn [fst snd] in *;
    try (destruct W1 as [[W1 _]|(e & k & W1 & _)]; discriminate).
  - destruct W1 as [[_ W1]|(e & k & W1 & _)]; [|discriminate].
    destruct (Write_effect ip c1) as (R2 & C2 & W2).
    destruct (Write ip c1) as [[[]|e2|?|] c2]; cbn [fst snd] in *;
      try (destruct W2 as [[W2 _]|(e & k & W2 & _)]; discriminate).
    + destruct W2 as [[_ W2]|(e & k & W2 & _)]; [|discriminate].
      destruct (Write_effect pb c2) as (R3 & C3 & W3).
      destruct (Write pb c2) as [[[]|e3|?|] c3]; cbn [fst snd] in *;
        try (destruct W3 as [[W3 _]|(e & k & W3 & _)]; discriminate).
      * destruct W3 as [[_ W3]|(e & k & W3 & _)]; [|discriminate].
        assert (Hall : wr c3 = wr c ++ hdr ++ ip ++ pb).
        { rewrite W3, W2, W1, <- !app_assoc. reflexivity. }
        split; [exists (length (hdr ++ ip ++ pb)); rewrite firstn_all; exact Hall|].
        split; [intros _; exact Hall|]. split; congruence.
      * destruct W3 as [[W3 _]|(e & k & _ & Hk & W3)]; [discriminate|].
        split; [|split; [discriminate | split; congruence]].
        exists (length hdr + (length ip + k))%nat.
        rewrite firstn_app_2, firstn_app_2.
        rewrite W3, W2, W1, <- !app_assoc. reflexivity.
    + destruct W2 as [[W2 _]|(e & k & _ & Hk & W2)]; [discriminate|].
      split; [|split; [discriminate | split; congruence]].
      exists (length hdr + k)%nat.
      rewrite firstn_app_2, (firstn_short_app ip pb k Hk).
      rewrite W2, W1, <- !app_assoc. reflexivity.
  - destruct W1 as [[W1 _]|(e & k & _ & Hk & W1)]; [discriminate|].
    split; [|split; [discriminate | split; congruence]].
    exists k. rewrite (firstn_short_app hdr (ip ++ pb) k Hk). exact W1.
Qed.

(** X21. The two port bytes of the success reply and the port of the request
    parser are inverse to each other: the bytes written for a port of 16
    bits are read back as that port, and the port read from two bytes is
    written back as those two bytes. *)
Theorem port_bytes_round_trip :
  (forall port, 0 <= port < 65536 ->
     exists b0 b1, port_bytes port = [b0; b1] /\ port_of_bytes b0 b1 = port) /\
  (forall b0 b1, port_bytes (port_of_bytes b0 b1) = [b0; b1]).
Proof.
  split.
  - intros port Hp. rewrite (port_bytes_big_endian port Hp).
    eexists. eexists. split; [reflexivity|]. apply port_bytes_inverse. exact Hp.
  - intros b0 b1. rewrite port_of_bytes_big_endian.
    pose proof (Z_of_byte_range b0) as H0. pose proof (Z_of_byte_range b1) as H1.
    rewrite port_bytes_big_endian by lia.
    replace ((Z_of_byte b0 * 256 + Z_of_byte b1) / 256) with (Z_of_byte b0)
      by (symmetry; rewrite Z.div_add_l by lia; rewrite Z.div_small by lia; lia).
    replace ((Z_of_byte b0 * 256 + Z_of_byte b1) mod 256) with (Z_of_byte b1)
      by (symmetry; rewrite Z.add_comm, Z.mod_add by lia; apply Z.mod_small; lia).
    rewrite !byte_of_Z_of_byte. reflexivity.
Qed.

(** * A CONNECT that succeeds, from the dial to the end of the relay *)

Lemma WriteRequestSuccessMessage_room (ip : list byte) (port : Z) (c : Conn) :
  room (6 + length ip) c ->
  exists cap,
    WriteRequestSuccessMessage ip port c =
      (Ok tt, set_wr (wr c ++ [SOCKS5Version; ReplySuccess; ReservedField;
                               if len ip >? IPv4Length then TypeIPv6 else TypeIPv4]
                           ++ ip ++ port_bytes port) cap c) /\
    forall n, room (n + (6 + length ip)) c ->
              room n (set_wr (wr c ++ [SOCKS5Version; ReplySuccess; ReservedField;
                                       if len ip >? IPv4Length then TypeIPv6
                                       else TypeIPv4]
                                   ++ ip ++ port_bytes port) cap c).
Proof.
  intros Hr. unfold WriteRequestSuccessMessage, bind.
  set (hdr := [SOCKS5Version; ReplySuccess; ReservedField;
               if len ip >? IPv4Length then TypeIPv6 else TypeIPv4]).
  set (pb := port_bytes port).
  assert (Hpb : length pb = 2%nat) by reflexivity.
  assert (Hhdr : length hdr = 4%nat) by reflexivity.
  assert (R1 : room (length hdr) c).
  { destruct Hr as [Hc Hk]. split; [exact Hc|].
    destruct (wcap c); [rewrite Hhdr; lia | exact I]. }
  destruct (Write_room hdr c R1) as (cap1 & W1 & K1). rewrite W1.
  set (c1 := set_wr (wr c ++ hdr) cap1 c) in *.
  assert (R2 : room (length ip) c1).
  { assert (R : room (2 + length ip) c1)
      by (apply K1; rewrite Hhdr;
          replace (2 + length ip + 4)%nat with (6 + length ip)%nat by lia; exact Hr).
    destruct R as [Hc Hk]. split; [exact Hc|].
    destruct (wcap c1); [lia | exact I]. }
  destruct (Write_room ip c1 R2) as (cap2 & W2 & K2). rewrite W2.
  set (c2 := set_wr (wr c1 ++ ip) cap2 c1) in *.
  assert (R3 : room (length pb) c2).
  { apply K2. apply K1. rewrite Hpb, Hhdr.
    replace (2 + length ip + 4)%nat with (6 + length ip)%nat by lia. exact Hr. }
  destruct (Write_room pb c2 R3) as (cap3 & W3 & K3). rewrite W3.
  exists cap3. split.
  - subst c2 c1. cbn [wr set_wr]. unfold set_wr. cbn [rd rend wr wcap werr closed].
    rewrite <- !app_assoc. reflexivity.
  - intros n Hn.
    assert (R : room n (set_wr (wr c2 ++ pb) cap3 c2)).
    { apply K3, K2, K1. rewrite Hpb, Hhdr.
      replace (n + 2 + length ip + 4)%nat with (n + (6 + length ip))%nat by lia.
      exact Hn. }
    subst c2 c1. unfold set_wr in *. cbn [rd rend wr wcap werr closed] in *.
    rewrite <- !app_assoc in R. exact R.
Qed.

Lemma forward_nil_room (sched : list thread) (conn targetConn : Conn) :
  closed targetConn = false ->
  rend targetConn = EOF ->
  room (length (rd targetConn)) conn ->
  (length (rd targetConn) < main_turns sched)%nat ->
  fst (forward sched (conn, targetConn)) = Ok tt.
Proof.
  intros Hc He Hr Ht. rewrite forward_relay.
  rewrite (relay_io_Copy sched true conn targetConn conn targetConn eq_refl).
  rewrite (io_Copy_EOF _ conn targetConn Ht Hc He Hr). reflexivity.
Qed.

(** X22. A CONNECT whose dial succeeds, to a target that sends its bytes and
    then ends its stream, with a client that takes all that is written to it
    and a main goroutine that gets enough turns: [handleTCP] returns nil;
    the client has been sent the success reply with the local address and
    port of the connection to the target, followed by every byte of the
    target; the target connection is closed, and what it has been sent is a
    prefix of what the client sent behind its request. *)
Theorem handleTCP_session (DialTimeout : string -> Z -> Target + error)
    (sched : list thread) (s : Config) (m : ClientRequestMessage) (w : World)
    (t : Target) :
  DialTimeout (target_address m) (TCPTimeout s) = inl t ->
  room (length (rd (tconn t)) + (6 + length (LocalIP t))) (client w) ->
  closed (tconn t) = false ->
  rend (tconn t) = EOF ->
  (length (rd (tconn t)) < main_turns sched)%nat ->
  fst (handleTCP DialTimeout sched s m w) = Ok tt /\
  wr (client (snd (handleTCP DialTimeout sched s m w))) =
    wr (client w)
    ++ ([SOCKS5Version; ReplySuccess; ReservedField;
         if len (LocalIP t) >? IPv4Length then TypeIPv6 else TypeIPv4]
        ++ LocalIP t ++ port_bytes (wrap16 (LocalPort t)))
    ++ rd (tconn t) /\
  (exists t', target (snd (handleTCP DialTimeout sched s m w)) = Some t' /\
              closed t' = true /\
              exists j, wr t' = wr (tconn t) ++ firstn j (rd (client w))) /\
  dialed (snd (handleTCP DialTimeout sched s m w)) = dialed w ++ [target_address m].
Proof.
  intros Hd Hroom Hc He Ht.
  assert (Hroom6 : room (6 + length (LocalIP t)) (client w)).
  { destruct Hroom as [Hcl Hk]. split; [exact Hcl|].
    destruct (wcap (client w)); [lia | exact I]. }
  destruct (WriteRequestSuccessMessage_room (LocalIP t) (wrap16 (LocalPort t))
              (client w) Hroom6) as (cap & Hw & Hk).
  specialize (Hk _ Hroom).
  remember (set_wr (wr (client w)
                    ++ [SOCKS5Version; ReplySuccess; ReservedField;
                        if len (LocalIP t) >? IPv4Length then TypeIPv6 else TypeIPv4]
                    ++ LocalIP t ++ port_bytes (wrap16 (LocalPort t))) cap (client w))
    as c1 eqn:Hc1.
  assert (Heq : handleTCP DialTimeout sched s m w =
                on_both (forward sched)
                  (mkWorld c1 (Some (tconn t)) (dialed w ++ [target_address m]))).
  { unfold handleTCP. fold (target_address m). unfold bind at 1.
    unfold attempt, dial. rewrite Hd. unfold bind, on_client.
    cbn [client target dialed]. rewrite Hw. reflexivity. }
  rewrite Heq. unfold on_both. cbn [client target dialed].
  pose proof (forward_nil_room sched c1 (tconn t) Hc He Hk Ht) as Hnil.
  pose proof (forward_nil_delivers sched c1 (tconn t) Hnil) as Hdel.
  pose proof (forward_closes_target sched c1 (tconn t)) as Hclose.
  pose proof (forward_prefixes sched c1 (tconn t)) as (_ & (j & Hj) & _).
  destruct (forward sched (c1, tconn t)) as [r [c' t']].
  cbn [fst snd client target dialed] in *.
  split; [exact Hnil|]. split; [|split; [|reflexivity]].
  - rewrite Hdel, Hc1. cbn [wr set_wr]. rewrite <- !app_assoc. reflexivity.
  - exists t'. split; [reflexivity|]. split.
    + apply Hclose. rewrite Hnil. discriminate.
    + exists j. rewrite Hj, Hc1. reflexivity.
Qed.

Lemma handleTCP_session_witness :
  handleTCP loopback [Spawned; Main; Main; Main] noAuthConfig
    (mkClientRequestMessage CmdConnect TypeDomain "example.com" 80)
    (accepted (conn_of (bytes "GET /"))) =
  (Ok tt,
   mkWorld (mkConn [] EOF ([x05; x00; x00; x01; x7f; x00; x00; x01; x04; x38]
                           ++ bytes "OK") None (ErrOther "write") false)
           (Some (mkConn [] EOF (bytes "GET /") None (ErrOther "write") true))
           ["example.com:80"]) /\
  fst (handleTCP loopback [Spawned; Main; Main; Main] noAuthConfig
         (mkClientRequestMessage CmdConnect TypeDomain "example.com" 80)
         (accepted (conn_of (bytes "GET /")))) = Ok tt.
Proof.
  split; [vm_compute; reflexivity|].
  refine (proj1 (handleTCP_session loopback [Spawned; Main; Main; Main] noAuthConfig
                   (mkClientRequestMessage CmdConnect TypeDomain "example.com" 80)
                   (accepted (conn_of (bytes "GET /")))
                   (mkTarget (conn_of (bytes "OK")) [x7f; x00; x00; x01] 1080)
                   eq_refl (conj eq_refl I) eq_refl eq_refl _)).
  cbn. lia.
Defined.

(** * The UDP-associate command *)

(** X23. A parsed UDP-associate request for an address that is not IPv6 is
    handed to [handleUDP], which does nothing: [request] returns nil, and
    nothing has been written to the client, dialed or relayed. *)
Theorem request_udp_returns_nil
    (IP_String : list byte -> string) (DialTimeout : string -> Z -> Target + error)
    (sched : list thread) (s : Config)
    (w : World) (c' : Conn) (m : ClientRequestMessage) :
  NewClientRequestMessage IP_String (client w) = (Ok m, c') ->
  AddrType m <> TypeIPv6 ->
  Cmd m = CmdUDP ->
  request IP_String DialTimeout sched s w = (Ok tt, mkWorld c' (target w) (dialed w)) /\
  wr c' = wr (client w).
Proof.
  intros Hm Hat Hcmd. split.
  - exact (request_udp_no_reply IP_String DialTimeout sched s w c' m Hm Hat Hcmd).
  - apply (parsed_request_conn IP_String _ _ _ Hm).
Qed.

Lemma request_udp_returns_nil_witness :
  request net_IP_String refusing [] noAuthConfig
    (accepted (conn_of [x05; x03; x00; x01; x0a; x00; x00; x01; x00; x50])) =
  (Ok tt, accepted (conn_of [])).
Proof.
  refine (proj1 (request_udp_returns_nil net_IP_String refusing [] noAuthConfig
                   (accepted (conn_of [x05; x03; x00; x01; x0a; x00; x00; x01; x00; x50]))
                   (conn_of [])
                   (mkClientRequestMessage CmdUDP TypeIPv4 "10.0.0.1" 80)
                   eq_refl _ eq_refl)).
  discriminate.
Defined.

Lemma port_bytes_round_trip_witness :
  exists b0 b1, port_bytes 1080 = [b0; b1] /\ port_of_bytes b0 b1 = 1080.
Proof.
  refine (proj1 port_bytes_round_trip 1080 _). lia.
Defined.
